(** * ThingHerder: the JSON-file document store of [src/db.js]

    A shallow embedding of the persistence and query layer: the five
    entity collections, the slug helpers, the cascade delete and the
    listing queries, followed by the properties the specification states
    about them.

    Conventions of the embedding.
    - A JavaScript string is a [string]; its characters are the code units
      below 256 (ASCII and Latin-1), on which [toLowerCase] is the Unicode
      simple lower-case mapping.
    - A JavaScript object used as a map ([db.projects] and the like) is an
      association list in insertion order: keys are UUIDs, never array
      indices, so [Object.keys] and [Object.values] enumerate in insertion
      order.
    - [created_at] and [updated_at] hold the ISO-8601 rendering of an
      instant; [new Date(s)] recovers that instant, so a record carries the
      instant itself, in milliseconds since the epoch.
    - [uuidv4()], [generateApiKey()] and [new Date()] are inputs of the
      operation that calls them.
    - The lookups [o[id]] of the store are read as own-key lookups, which
      they are at every identifier that is not a name of
      [Object.prototype] ([inherited_key]).
    - The part on persistence ([Raw]) embeds the [create] operations on
      JavaScript values rather than on typed records: what
      [JSON.stringify] keeps of a record depends on the values in it. *)

From Stdlib Require Import List String Ascii ZArith Lia Bool Arith.
From Stdlib Require Import Sorting.Permutation Sorting.Sorted.
From Stdlib Require Import DecimalString DecimalNat FinFun.
From Stdlib Require Strings.Byte.
Import ListNotations.
Open Scope string_scope.

Set Implicit Arguments.
Set Warnings "-register-all".

(** ** Characters and strings *)

Definition chr_between (lo hi : nat) (c : ascii) : bool :=
  let n := nat_of_ascii c in (lo <=? n)%nat && (n <=? hi)%nat.

(** The class [[a-z0-9]] of the regular expression in [slugify]. *)
Definition is_slug_char (c : ascii) : bool :=
  chr_between 97 122 c || chr_between 48 57 c.

(** Upper-case letters of ASCII and Latin-1 (U+00D7 is the multiplication
    sign, not a letter). *)
Definition is_upper (c : ascii) : bool :=
  chr_between 65 90 c
  || (chr_between 192 222 c && negb (nat_of_ascii c =? 215)%nat).

Definition lower_char (c : ascii) : ascii :=
  if is_upper c then ascii_of_nat (nat_of_ascii c + 32) else c.

Definition chars (s : string) : list ascii := list_ascii_of_string s.
Definition of_chars (l : list ascii) : string := string_of_list_ascii l.

(** [String.prototype.toLowerCase] *)
Definition toLowerCase (s : string) : string :=
  of_chars (map lower_char (chars s)).

Definition hyphen : ascii := "-"%char.

(** [.replace(/[^a-z0-9]+/g, '-')]: the scanner emits one hyphen when it
    enters a maximal run of characters outside the class and nothing for
    the rest of the run. *)
Fixpoint replace_runs (in_run : bool) (l : list ascii) : list ascii :=
  match l with
  | [] => []
  | c :: l' =>
      if is_slug_char c then c :: replace_runs false l'
      else if in_run then replace_runs true l'
      else hyphen :: replace_runs true l'
  end.

Definition strip_leading (l : list ascii) : list ascii :=
  match l with
  | c :: l' => if Ascii.eqb c hyphen then l' else l
  | [] => []
  end.

Definition strip_trailing (l : list ascii) : list ascii :=
  rev (strip_leading (rev l)).

(** [.replace(/^-|-$/g, '')]: one hyphen at the start and one at the end
    are removed, when present. *)
Definition replace_edges (l : list ascii) : list ascii :=
  strip_trailing (strip_leading l).

(** [slugify(text)] *)
Definition slugify (text : string) : string :=
  of_chars
    (firstn 50
       (replace_edges
          (replace_runs false (map lower_char (chars text))))).

(** The decimal rendering of a counter inside a template literal. *)
Definition nat_to_string (n : nat) : string :=
  NilEmpty.string_of_uint (Nat.to_uint n).

(** ** Objects used as maps *)

Section Obj.
Variable A : Type.

Definition obj := list (string * A).

Fixpoint obj_get (k : string) (o : obj) : option A :=
  match o with
  | [] => None
  | (k', v) :: o' => if String.eqb k k' then Some v else obj_get k o'
  end.

(** [o[k] = v]: an existing key keeps its place, a new key goes last. *)
Fixpoint obj_set (k : string) (v : A) (o : obj) : obj :=
  match o with
  | [] => [(k, v)]
  | (k', v') :: o' =>
      if String.eqb k k' then (k, v) :: o' else (k', v') :: obj_set k v o'
  end.

(** [delete o[k]] *)
Definition obj_delete (k : string) (o : obj) : obj :=
  filter (fun kv => negb (String.eqb k (fst kv))) o.

Definition obj_keys (o : obj) : list string := map fst o.
Definition obj_values (o : obj) : list A := map snd o.

(** An object holds each of its keys once. *)
Definition obj_wf (o : obj) : Prop := NoDup (obj_keys o).

(** [Array.prototype.sort(cmp)] is stable; with a comparator that orders
    by a key the result is the stable insertion of each element before
    the first later element it does not follow. *)
Fixpoint insert_by (cmp : A -> A -> Z) (x : A) (l : list A) : list A :=
  match l with
  | [] => [x]
  | y :: l' => if (cmp x y <=? 0)%Z then x :: l else y :: insert_by cmp x l'
  end.

Definition sort_by (cmp : A -> A -> Z) (l : list A) : list A :=
  fold_right (insert_by cmp) [] l.
End Obj.

(** [Array.prototype.includes] on strings *)
Definition includes (l : list string) (s : string) : bool :=
  existsb (String.eqb s) l.

(** The names that [Object.prototype] defines: [o[k]] finds them in
    every object, whether [o] holds the key or not, and [o["__proto__"]]
    reads and writes the prototype itself.  The lookups of the store are
    own-key lookups at every other name, which is where UUIDs are. *)
Definition inherited_key (k : string) : bool :=
  includes
    ["constructor"; "__proto__"; "hasOwnProperty"; "isPrototypeOf";
     "propertyIsEnumerable"; "toLocaleString"; "toString"; "valueOf";
     "__defineGetter__"; "__defineSetter__"; "__lookupGetter__";
     "__lookupSetter__"] k.

(** [s.split(',')] *)
Fixpoint split_chars (cur : list ascii) (l : list ascii) : list (list ascii) :=
  match l with
  | [] => [rev cur]
  | c :: l' =>
      if Ascii.eqb c ","%char then rev cur :: split_chars [] l'
      else split_chars (c :: cur) l'
  end.

Definition split_comma (s : string) : list string :=
  map of_chars (split_chars [] (chars s)).

(** Truthiness of an optional string: [undefined], [null] and the empty
    string are falsy. *)
Definition truthy_str (o : option string) : option string :=
  match o with
  | Some s => if String.eqb s "" then None else Some s
  | None => None
  end.

(** Truthiness of an optional number: [0] is falsy as well. *)
Definition truthy_num (o : option Z) : option Z :=
  match o with
  | Some z => if (z =? 0)%Z then None else Some z
  | None => None
  end.

(** A field of the second object, when it has one, replaces the field of
    the first ([Object.assign]); a default replaces an absent input. *)
Definition or_else (A : Type) (o : option A) (d : A) : A :=
  match o with
  | Some x => x
  | None => d
  end.

(** ** Data model *)

Module Agent.
Record t := mk
  { id : string;
    name : string;
    display_name : string;
    bio : option string;
    email : option string;
    avatar_url : option string;
    skills : list string;
    api_key : string;
    created_at : Z;
    updated_at : Z }.
End Agent.

Module Project.
Record t := mk
  { id : string;
    slug : string;
    title : string;
    description : option string;
    category : string;
    status : string;
    skills_needed : list string;
    max_collaborators : option Z;
    creator_id : string;
    created_at : Z;
    updated_at : Z }.
End Project.

Module Collaboration.
Record t := mk
  { id : string;
    project_id : string;
    agent_id : string;
    role : string;
    pitch : option string;
    status : string;
    joined_at : Z }.
End Collaboration.

Module Update.
Record t := mk
  { id : string;
    project_id : string;
    agent_id : string;
    content : string;
    created_at : Z }.
End Update.

Module Comment.
Record t := mk
  { id : string;
    project_id : string;
    agent_id : string;
    content : string;
    created_at : Z }.
End Comment.

(** The in-memory document [db]. *)
Module Db.
Record t := mk
  { agents : obj Agent.t;
    projects : obj Project.t;
    collaborations : obj Collaboration.t;
    updates : obj Update.t;
    comments : obj Comment.t }.

Definition empty : t := mk [] [] [] [] [].

Definition with_agents (o : obj Agent.t) (d : t) : t :=
  mk o (projects d) (collaborations d) (updates d) (comments d).
Definition with_projects (o : obj Project.t) (d : t) : t :=
  mk (agents d) o (collaborations d) (updates d) (comments d).
Definition with_collaborations (o : obj Collaboration.t) (d : t) : t :=
  mk (agents d) (projects d) o (updates d) (comments d).
Definition with_updates (o : obj Update.t) (d : t) : t :=
  mk (agents d) (projects d) (collaborations d) o (comments d).
Definition with_comments (o : obj Comment.t) (d : t) : t :=
  mk (agents d) (projects d) (collaborations d) (updates d) o.
End Db.

(** ** Inputs of the operations

    The [data] argument of each [create]: a field read without a default
    is required, a field read with [||] is optional ([None] stands for
    [undefined] or [null]). *)

Module AgentData.
Record t := mk
  { name : string;
    displayName : string;
    bio : option string;
    email : option string;
    avatarUrl : option string;
    skills : option (list string) }.
End AgentData.

Module ProjectData.
Record t := mk
  { title : string;
    description : option string;
    category : option string;
    skillsNeeded : option (list string);
    maxCollaborators : option Z;
    creatorId : string }.
End ProjectData.

Module CollaborationData.
Record t := mk
  { projectId : string;
    agentId : string;
    role : option string;
    pitch : option string;
    status : option string }.
End CollaborationData.

Module EntryData.
Record t := mk
  { projectId : string;
    agentId : string;
    content : string }.
End EntryData.

(** The [data] argument of each [update]: the fields it carries, each one
    optional; a nullable field may be set to [null]. *)

Module AgentPatch.
Record t := mk
  { id : option string;
    name : option string;
    display_name : option string;
    bio : option (option string);
    email : option (option string);
    avatar_url : option (option string);
    skills : option (list string);
    api_key : option string;
    created_at : option Z }.
End AgentPatch.

Module ProjectPatch.
Record t := mk
  { id : option string;
    slug : option string;
    title : option string;
    description : option (option string);
    category : option string;
    status : option string;
    skills_needed : option (list string);
    max_collaborators : option (option Z);
    creator_id : option string;
    created_at : option Z }.

Definition none : t := mk None None None None None None None None None None.
End ProjectPatch.

Module CollaborationPatch.
Record t := mk
  { id : option string;
    project_id : option string;
    agent_id : option string;
    role : option string;
    pitch : option (option string);
    status : option string;
    joined_at : option Z }.
End CollaborationPatch.

(** The [filters] argument of [projects.findAll]; the limit is an integer
    number. *)
Module Filters.
Record t := mk
  { category : option string;
    status : option string;
    skill : option string;
    limit : option Z }.

Definition none : t := mk None None None None.

Definition with_limit (n : option Z) (f : t) : t :=
  mk (category f) (status f) (skill f) n.
End Filters.

(** ** Slug uniqueness helper *)

(** [Object.values(db.projects).some(p => p.slug === slug)] *)
Definition slug_taken (db : Db.t) (slug : string) : bool :=
  existsb (fun p => String.eqb (Project.slug p) slug)
          (obj_values (Db.projects db)).

(** The [while] loop of [uniqueSlug], one iteration per unit of fuel. *)
Fixpoint uniqueSlug_loop (fuel : nat) (db : Db.t) (baseSlug slug : string)
    (counter : nat) : option string :=
  match fuel with
  | O => None
  | S fuel' =>
      if slug_taken db slug
      then uniqueSlug_loop fuel' db baseSlug
             (baseSlug ++ "-" ++ nat_to_string counter) (S counter)
      else Some slug
  end.

(** [uniqueSlug(baseSlug)]; one iteration more than there are projects is
    all the loop can use. *)
Definition uniqueSlug (db : Db.t) (baseSlug : string) : option string :=
  uniqueSlug_loop (S (List.length (Db.projects db))) db baseSlug baseSlug 1.

(** ** Agent operations *)

Module agents.
Definition create (data : AgentData.t) (id apiKey : string)
    (now now' : Z) (db : Db.t) : Db.t * Agent.t :=
  let agent :=
    {| Agent.id := id;
       Agent.name := AgentData.name data;
       Agent.display_name := AgentData.displayName data;
       Agent.bio := truthy_str (AgentData.bio data);
       Agent.email := truthy_str (AgentData.email data);
       Agent.avatar_url := truthy_str (AgentData.avatarUrl data);
       Agent.skills := or_else (AgentData.skills data) [];
       Agent.api_key := apiKey;
       Agent.created_at := now;
       Agent.updated_at := now' |} in
  (Db.with_agents (obj_set id agent (Db.agents db)) db, agent).

Definition findByApiKey (apiKey : string) (db : Db.t) : option Agent.t :=
  find (fun a => String.eqb (Agent.api_key a) apiKey)
       (obj_values (Db.agents db)).

Definition findByName (name : string) (db : Db.t) : option Agent.t :=
  find (fun a => String.eqb (toLowerCase (Agent.name a)) (toLowerCase name))
       (obj_values (Db.agents db)).

(** [db.agents[id]], for an [id] that is not an [inherited_key]. *)
Definition findById (id : string) (db : Db.t) : option Agent.t :=
  obj_get id (Db.agents db).

(** [Object.assign(agent, data, { updated_at })] *)
Definition assign (a : Agent.t) (data : AgentPatch.t) (now : Z) : Agent.t :=
  {| Agent.id := or_else (AgentPatch.id data) (Agent.id a);
     Agent.name := or_else (AgentPatch.name data) (Agent.name a);
     Agent.display_name :=
       or_else (AgentPatch.display_name data) (Agent.display_name a);
     Agent.bio := or_else (AgentPatch.bio data) (Agent.bio a);
     Agent.email := or_else (AgentPatch.email data) (Agent.email a);
     Agent.avatar_url :=
       or_else (AgentPatch.avatar_url data) (Agent.avatar_url a);
     Agent.skills := or_else (AgentPatch.skills data) (Agent.skills a);
     Agent.api_key := or_else (AgentPatch.api_key data) (Agent.api_key a);
     Agent.created_at :=
       or_else (AgentPatch.created_at data) (Agent.created_at a);
     Agent.updated_at := now |}.

(** For an [id] that is not an [inherited_key]: at one that is,
    [db.agents[id]] is a property of [Object.prototype] and the
    assignment writes into it. *)
Definition update (id : string) (data : AgentPatch.t) (now : Z)
    (db : Db.t) : Db.t * option Agent.t :=
  match obj_get id (Db.agents db) with
  | None => (db, None)
  | Some agent =>
      let agent' := assign agent data now in
      (Db.with_agents (obj_set id agent' (Db.agents db)) db, Some agent')
  end.

Definition nameExists (name : string) (db : Db.t) : bool :=
  existsb
    (fun a => String.eqb (toLowerCase (Agent.name a)) (toLowerCase name))
    (obj_values (Db.agents db)).
End agents.

(** ** Project operations *)

(** [results.slice(0, end)] for an integer [end]: a negative [end] counts
    from the end of the array. *)
Definition slice0 (A : Type) (e : Z) (l : list A) : list A :=
  if (e <? 0)%Z then firstn (Z.to_nat (Z.of_nat (List.length l) + e)) l
  else firstn (Z.to_nat e) l.

(** The loop [Object.keys(o).forEach(k => { if (o[k].project_id === id)
    delete o[k]; })] of [projects.delete], over the snapshot of the keys.
    A key is still present when the loop comes to it, since an object
    holds it once and the loop deletes only the key it is at. *)
Definition cascade (A : Type) (project_id : A -> string) (id : string)
    (o : obj A) : obj A :=
  fold_left
    (fun cur k =>
       match obj_get k cur with
       | Some r => if String.eqb (project_id r) id then obj_delete k cur
                   else cur
       | None => cur
       end)
    (obj_keys o) o.

(** [parseInt(n)] for an integer number [n].  Below 10^21 in size
    [String(n)] is the plain numeral of [n], which parses back to [n];
    from there on it is in exponent form (["1e+21"]) and what parses out
    of that, the digits in front, is left to the built-in, which
    [exponent_head] stands for. *)
Definition parseInt_number (exponent_head : Z -> Z) (n : Z) : Z :=
  if (Z.abs n <? 10 ^ 21)%Z then n else exponent_head n.

(** The records the loop leaves in place. *)
Definition kept (A : Type) (project_id : A -> string) (id : string)
    (kv : string * A) : bool :=
  negb (String.eqb (project_id (snd kv)) id).

Module projects.
Definition create (data : ProjectData.t) (id : string) (now now' : Z)
    (db : Db.t) : option (Db.t * Project.t) :=
  match uniqueSlug db (slugify (ProjectData.title data)) with
  | None => None
  | Some slug =>
      let project :=
        {| Project.id := id;
           Project.slug := slug;
           Project.title := ProjectData.title data;
           Project.description := truthy_str (ProjectData.description data);
           Project.category :=
             or_else (truthy_str (ProjectData.category data)) "other";
           Project.status := "seeking";
           Project.skills_needed :=
             or_else (ProjectData.skillsNeeded data) [];
           Project.max_collaborators :=
             truthy_num (ProjectData.maxCollaborators data);
           Project.creator_id := ProjectData.creatorId data;
           Project.created_at := now;
           Project.updated_at := now' |} in
      Some (Db.with_projects (obj_set id project (Db.projects db)) db,
            project)
  end.

Definition findBySlug (slug : string) (db : Db.t) : option Project.t :=
  find (fun p => String.eqb (Project.slug p) slug)
       (obj_values (Db.projects db)).

(** [db.projects[id]], for an [id] that is not an [inherited_key]. *)
Definition findById (id : string) (db : Db.t) : option Project.t :=
  obj_get id (Db.projects db).

(** The comparator [new Date(b.created_at) - new Date(a.created_at)]. *)
Definition newest_first (a b : Project.t) : Z :=
  (Project.created_at b - Project.created_at a)%Z.

Definition default_statuses : list string := ["seeking"; "in-progress"].

Definition findAll (exponent_head : Z -> Z) (filters : Filters.t)
    (db : Db.t) : list Project.t :=
  let results := obj_values (Db.projects db) in
  let results :=
    match truthy_str (Filters.category filters) with
    | Some c => filter (fun p => String.eqb (Project.category p) c) results
    | None => results
    end in
  let results :=
    match truthy_str (Filters.status filters) with
    | Some s =>
        let statuses := split_comma s in
        filter (fun p => includes statuses (Project.status p)) results
    | None =>
        filter (fun p => includes default_statuses (Project.status p))
               results
    end in
  let results :=
    match truthy_str (Filters.skill filters) with
    | Some k => filter (fun p => includes (Project.skills_needed p) k) results
    | None => results
    end in
  let results := sort_by newest_first results in
  match truthy_num (Filters.limit filters) with
  | Some n => slice0 (parseInt_number exponent_head n) results
  | None => results
  end.

Definition findByCreator (creatorId : string) (db : Db.t)
    : list Project.t :=
  filter (fun p => String.eqb (Project.creator_id p) creatorId)
         (obj_values (Db.projects db)).

(** [Object.assign(project, data, { updated_at })] *)
Definition assign (p : Project.t) (data : ProjectPatch.t) (now : Z)
    : Project.t :=
  {| Project.id := or_else (ProjectPatch.id data) (Project.id p);
     Project.slug := or_else (ProjectPatch.slug data) (Project.slug p);
     Project.title := or_else (ProjectPatch.title data) (Project.title p);
     Project.description :=
       or_else (ProjectPatch.description data) (Project.description p);
     Project.category :=
       or_else (ProjectPatch.category data) (Project.category p);
     Project.status := or_else (ProjectPatch.status data) (Project.status p);
     Project.skills_needed :=
       or_else (ProjectPatch.skills_needed data) (Project.skills_needed p);
     Project.max_collaborators :=
       or_else (ProjectPatch.max_collaborators data)
               (Project.max_collaborators p);
     Project.creator_id :=
       or_else (ProjectPatch.creator_id data) (Project.creator_id p);
     Project.created_at :=
       or_else (ProjectPatch.created_at data) (Project.created_at p);
     Project.updated_at := now |}.

(** For an [id] that is not an [inherited_key], as in [agents.update]. *)
Definition update (id : string) (data : ProjectPatch.t) (now : Z)
    (db : Db.t) : Db.t * option Project.t :=
  match obj_get id (Db.projects db) with
  | None => (db, None)
  | Some project =>
      let project' := assign project data now in
      (Db.with_projects (obj_set id project' (Db.projects db)) db,
       Some project')
  end.

Definition delete (id : string) (db : Db.t) : Db.t :=
  {| Db.agents := Db.agents db;
     Db.projects := obj_delete id (Db.projects db);
     Db.collaborations :=
       cascade Collaboration.project_id id (Db.collaborations db);
     Db.updates := cascade Update.project_id id (Db.updates db);
     Db.comments := cascade Comment.project_id id (Db.comments db) |}.
End projects.

(** ** Collaboration operations *)

Module collaborations.
Definition create (data : CollaborationData.t) (id : string) (now : Z)
    (db : Db.t) : Db.t * Collaboration.t :=
  let collab :=
    {| Collaboration.id := id;
       Collaboration.project_id := CollaborationData.projectId data;
       Collaboration.agent_id := CollaborationData.agentId data;
       Collaboration.role :=
         or_else (truthy_str (CollaborationData.role data)) "collaborator";
       Collaboration.pitch := truthy_str (CollaborationData.pitch data);
       Collaboration.status :=
         or_else (truthy_str (CollaborationData.status data)) "pending";
       Collaboration.joined_at := now |} in
  (Db.with_collaborations (obj_set id collab (Db.collaborations db)) db,
   collab).

Definition findByProjectAndAgent (projectId agentId : string) (db : Db.t)
    : option Collaboration.t :=
  find (fun c => String.eqb (Collaboration.project_id c) projectId
                 && String.eqb (Collaboration.agent_id c) agentId)
       (obj_values (Db.collaborations db)).

Definition findByProject (projectId : string) (db : Db.t)
    : list Collaboration.t :=
  filter (fun c => String.eqb (Collaboration.project_id c) projectId)
         (obj_values (Db.collaborations db)).

Definition findByAgent (agentId : string) (db : Db.t)
    : list Collaboration.t :=
  filter (fun c => String.eqb (Collaboration.agent_id c) agentId)
         (obj_values (Db.collaborations db)).

(** [Object.assign(collab, data)] *)
Definition assign (c : Collaboration.t) (data : CollaborationPatch.t)
    : Collaboration.t :=
  {| Collaboration.id :=
       or_else (CollaborationPatch.id data) (Collaboration.id c);
     Collaboration.project_id :=
       or_else (CollaborationPatch.project_id data)
               (Collaboration.project_id c);
     Collaboration.agent_id :=
       or_else (CollaborationPatch.agent_id data) (Collaboration.agent_id c);
     Collaboration.role :=
       or_else (CollaborationPatch.role data) (Collaboration.role c);
     Collaboration.pitch :=
       or_else (CollaborationPatch.pitch data) (Collaboration.pitch c);
     Collaboration.status :=
       or_else (CollaborationPatch.status data) (Collaboration.status c);
     Collaboration.joined_at :=
       or_else (CollaborationPatch.joined_at data)
               (Collaboration.joined_at c) |}.

(** For an [id] that is not an [inherited_key], as in [agents.update]. *)
Definition update (id : string) (data : CollaborationPatch.t) (db : Db.t)
    : Db.t * option Collaboration.t :=
  match obj_get id (Db.collaborations db) with
  | None => (db, None)
  | Some collab =>
      let collab' := assign collab data in
      (Db.with_collaborations
         (obj_set id collab' (Db.collaborations db)) db,
       Some collab')
  end.

Definition delete (projectId agentId : string) (db : Db.t) : Db.t :=
  match findByProjectAndAgent projectId agentId db with
  | Some collab =>
      Db.with_collaborations
        (obj_delete (Collaboration.id collab) (Db.collaborations db)) db
  | None => db
  end.

Definition countAccepted (projectId : string) (db : Db.t) : nat :=
  List.length
    (filter (fun c => String.eqb (Collaboration.project_id c) projectId
                      && String.eqb (Collaboration.status c) "accepted")
            (obj_values (Db.collaborations db))).
End collaborations.

(** ** Update and comment operations *)

Module updates.
Definition create (data : EntryData.t) (id : string) (now : Z) (db : Db.t)
    : Db.t * Update.t :=
  let update :=
    {| Update.id := id;
       Update.project_id := EntryData.projectId data;
       Update.agent_id := EntryData.agentId data;
       Update.content := EntryData.content data;
       Update.created_at := now |} in
  (Db.with_updates (obj_set id update (Db.updates db)) db, update).

(** The comparator [new Date(b.created_at) - new Date(a.created_at)]. *)
Definition newest_first (a b : Update.t) : Z :=
  (Update.created_at b - Update.created_at a)%Z.

Definition findByProject (projectId : string) (db : Db.t) : list Update.t :=
  sort_by newest_first
    (filter (fun u => String.eqb (Update.project_id u) projectId)
            (obj_values (Db.updates db))).
End updates.

Module comments.
Definition create (data : EntryData.t) (id : string) (now : Z) (db : Db.t)
    : Db.t * Comment.t :=
  let comment :=
    {| Comment.id := id;
       Comment.project_id := EntryData.projectId data;
       Comment.agent_id := EntryData.agentId data;
       Comment.content := EntryData.content data;
       Comment.created_at := now |} in
  (Db.with_comments (obj_set id comment (Db.comments db)) db, comment).

(** The comparator [new Date(a.created_at) - new Date(b.created_at)]. *)
Definition oldest_first (a b : Comment.t) : Z :=
  (Comment.created_at a - Comment.created_at b)%Z.

Definition findByProject (projectId : string) (db : Db.t)
    : list Comment.t :=
  sort_by oldest_first
    (filter (fun c => String.eqb (Comment.project_id c) projectId)
            (obj_values (Db.comments db))).
End comments.

(** ** Sequences of store operations *)

(** One call of a mutating operation, with the values its calls to
    [uuidv4], [generateApiKey] and [new Date] return. *)
Inductive op : Type :=
| AgentCreate (data : AgentData.t) (id apiKey : string) (now now' : Z)
| AgentUpdate (id : string) (data : AgentPatch.t) (now : Z)
| ProjectCreate (data : ProjectData.t) (id : string) (now now' : Z)
| ProjectUpdate (id : string) (data : ProjectPatch.t) (now : Z)
| ProjectDelete (id : string)
| CollaborationCreate (data : CollaborationData.t) (id : string) (now : Z)
| CollaborationUpdate (id : string) (data : CollaborationPatch.t)
| CollaborationDelete (projectId agentId : string)
| UpdateCreate (data : EntryData.t) (id : string) (now : Z)
| CommentCreate (data : EntryData.t) (id : string) (now : Z).

Definition exec (o : op) (db : Db.t) : option Db.t :=
  match o with
  | AgentCreate data id apiKey now now' =>
      Some (fst (agents.create data id apiKey now now' db))
  | AgentUpdate id data now => Some (fst (agents.update id data now db))
  | ProjectCreate data id now now' =>
      option_map fst (projects.create data id now now' db)
  | ProjectUpdate id data now => Some (fst (projects.update id data now db))
  | ProjectDelete id => Some (projects.delete id db)
  | CollaborationCreate data id now =>
      Some (fst (collaborations.create data id now db))
  | CollaborationUpdate id data =>
      Some (fst (collaborations.update id data db))
  | CollaborationDelete projectId agentId =>
      Some (collaborations.delete projectId agentId db)
  | UpdateCreate data id now => Some (fst (updates.create data id now db))
  | CommentCreate data id now => Some (fst (comments.create data id now db))
  end.

Fixpoint run (ops : list op) (db : Db.t) : option Db.t :=
  match ops with
  | [] => Some db
  | o :: ops' =>
      match exec o db with
      | Some db' => run ops' db'
      | None => None
      end
  end.

(** A store state is reachable when some sequence of operations leads to
    it from the empty document. *)
Definition reachable (db : Db.t) : Prop :=
  exists ops, run ops Db.empty = Some db.

(** Whether an operation is a [projects.update] whose data carries a
    [slug] field. *)
Definition sets_slug (o : op) : bool :=
  match o with
  | ProjectUpdate _ data _ =>
      match ProjectPatch.slug data with
      | Some _ => true
      | None => false
      end
  | _ => false
  end.

(** The slugs of the Project collection, in enumeration order. *)
Definition slugs (db : Db.t) : list string :=
  map Project.slug (obj_values (Db.projects db)).

(** No two Project records have equal slugs. *)
Definition slugs_unique (db : Db.t) : Prop := NoDup (slugs db).

(** Every collection holds each of its keys once. *)
Definition db_wf (db : Db.t) : Prop :=
  obj_wf (Db.agents db) /\ obj_wf (Db.projects db)
  /\ obj_wf (Db.collaborations db) /\ obj_wf (Db.updates db)
  /\ obj_wf (Db.comments db).

(** ** The slug rule in the words of the specification

    Lowercase the title, collapse every run of non-alphanumeric characters
    to a single hyphen, trim leading and trailing hyphens, truncate to 50
    characters; on a collision append [-1], [-2], ... and take the first
    suffix that is free. *)

Module SlugSpec.
(** ASCII letters and digits. *)
Definition is_alnum (c : ascii) : bool :=
  chr_between 97 122 c || chr_between 65 90 c || chr_between 48 57 c.

(** The maximal runs of a text, each with its class: [true] for a run of
    alphanumeric characters. *)
Fixpoint runs (l : list ascii) : list (bool * list ascii) :=
  match l with
  | [] => []
  | c :: l' =>
      match runs l' with
      | (b, r) :: rest =>
          if Bool.eqb b (is_alnum c) then (b, c :: r) :: rest
          else (is_alnum c, [c]) :: (b, r) :: rest
      | [] => [(is_alnum c, [c])]
      end
  end.

Definition collapse (l : list ascii) : list ascii :=
  flat_map (fun br : bool * list ascii =>
              if fst br then snd br else [hyphen]) (runs l).

Fixpoint drop_hyphens (l : list ascii) : list ascii :=
  match l with
  | c :: l' => if Ascii.eqb c hyphen then drop_hyphens l' else l
  | [] => []
  end.

Definition trim (l : list ascii) : list ascii :=
  rev (drop_hyphens (rev (drop_hyphens l))).

Definition base_slug (title : string) : string :=
  of_chars (firstn 50 (trim (collapse (map lower_char (chars title))))).

(** The [k]-th candidate: the base slug itself, then the numbered ones. *)
Definition candidate (base : string) (k : nat) : string :=
  match k with
  | O => base
  | S _ => base ++ "-" ++ nat_to_string k
  end.

(** [slug] is the first candidate that no existing Project holds. *)
Definition first_free (db : Db.t) (base slug : string) : Prop :=
  exists k,
    slug = candidate base k
    /\ ~ In slug (slugs db)
    /\ forall j, (j < k)%nat -> In (candidate base j) (slugs db).
End SlugSpec.

(** No two hyphens side by side. *)
Definition pair_free (l : list ascii) : Prop :=
  forall l1 l2, l <> (l1 ++ hyphen :: hyphen :: l2)%list.

(** ** Titles without alphanumeric characters *)

Definition no_alnum (title : string) : bool :=
  forallb (fun c => negb (SlugSpec.is_alnum c)) (chars title).

(** A [projects.create] whose title has no alphanumeric character. *)
Definition blank_create (o : op) : bool :=
  match o with
  | ProjectCreate data _ _ _ => no_alnum (ProjectData.title data)
  | _ => false
  end.

(** The identifier [uuidv4()] returns in a [projects.create]. *)
Definition created_id (o : op) : string :=
  match o with
  | ProjectCreate _ id _ _ => id
  | _ => ""
  end.

(** ** Persistence

    The records of the store are plain objects and [save] writes them
    with [JSON.stringify]: what the file keeps of a record depends on the
    values the caller put into it.  This part embeds the five [create]
    operations on JavaScript values as they come, so that an input the
    caller left out is [undefined] and a number may be one that JSON
    cannot write. *)

(** Numbers: the finite ones, for which the integers stand ([-0] apart),
    and the ones that are not finite. *)
Inductive number : Type :=
| Finite (z : Z)
| NegZero
| NaN
| Infinity (negative : bool).

(** JavaScript values as [JSON.stringify] sees them. *)
Inductive value : Type :=
| VUndefined
| VNull
| VBool (b : bool)
| VNum (n : number)
| VStr (s : string)
| VArr (l : list value)
| VObj (l : list (string * value)).

(** The documents of the JSON grammar. *)
Inductive json : Type :=
| JNull
| JBool (b : bool)
| JNum (z : Z)
| JStr (s : string)
| JArr (l : list json)
| JObj (l : list (string * json)).

(** [JSON.stringify]: a property whose value is [undefined] is left out, an
    [undefined] array element is written as [null], [undefined] itself has
    no rendering; [NaN] and the infinities are written as [null] and [-0]
    as [0]. *)
Fixpoint stringify (v : value) : option json :=
  match v with
  | VUndefined => None
  | VNull => Some JNull
  | VBool b => Some (JBool b)
  | VNum (Finite z) => Some (JNum z)
  | VNum NegZero => Some (JNum 0)
  | VNum NaN => Some JNull
  | VNum (Infinity _) => Some JNull
  | VStr s => Some (JStr s)
  | VArr l => Some (JArr (map (fun x => or_else (stringify x) JNull) l))
  | VObj l =>
      Some (JObj
        ((fix props (l : list (string * value)) : list (string * json) :=
            match l with
            | [] => []
            | (k, x) :: l' =>
                match stringify x with
                | Some j => (k, j) :: props l'
                | None => props l'
                end
            end) l))
  end.

(** [JSON.parse] *)
Fixpoint parse (j : json) : value :=
  match j with
  | JNull => VNull
  | JBool b => VBool b
  | JNum z => VNum (Finite z)
  | JStr s => VStr s
  | JArr l => VArr (map parse l)
  | JObj l => VObj (map (fun kj => (fst kj, parse (snd kj))) l)
  end.



(** Truthiness. *)
Definition truthy (v : value) : bool :=
  match v with
  | VUndefined => false
  | VNull => false
  | VBool b => b
  | VNum (Finite z) => negb (z =? 0)%Z
  | VNum NegZero => false
  | VNum NaN => false
  | VNum (Infinity _) => true
  | VStr s => negb (String.eqb s "")
  | VArr _ => true
  | VObj _ => true
  end.

(** [a || b] *)
Definition js_or (a b : value) : value := if truthy a then a else b.

(** [o.k] for an object given by its own properties, at a name that
    [Object.prototype] does not define. *)
Definition prop (o : obj value) (k : string) : value :=
  or_else (obj_get k o) VUndefined.

(** [v[k]] *)
Definition member (v : value) (k : string) : value :=
  match v with
  | VObj l => prop l k
  | _ => VUndefined
  end.



(** The file at [dbPath]. *)
Inductive file : Type :=
| Absent
| Unparsable
| Document (j : json).

Module Raw.

(** The document [db], each record an object. *)
Module Db.
Record t := mk
  { agents : obj (obj value);
    projects : obj (obj value);
    collaborations : obj (obj value);
    updates : obj (obj value);
    comments : obj (obj value) }.

Definition empty : t := mk [] [] [] [] [].
End Db.

Definition collection (o : obj (obj value)) : value :=
  VObj (map (fun kv => (fst kv, VObj (snd kv))) o).

Definition document (d : Db.t) : value :=
  VObj [ ("agents", collection (Db.agents d));
         ("projects", collection (Db.projects d));
         ("collaborations", collection (Db.collaborations d));
         ("updates", collection (Db.updates d));
         ("comments", collection (Db.comments d)) ].

(** [save()]: the file becomes the rendering of the whole document. *)
Definition save (d : Db.t) : file :=
  match stringify (document d) with
  | Some j => Document j
  | None => Unparsable
  end.

(** The load at start-up: the parsed file, or the empty document when
    the file is absent or does not parse. *)
Definition load (f : file) : value :=
  match f with
  | Document j => parse j
  | Absent => document Db.empty
  | Unparsable => document Db.empty
  end.

(** [Object.values(db.projects).some(p => p.slug === slug)] *)
Definition slug_taken (d : Db.t) (slug : string) : bool :=
  existsb (fun p => match prop p "slug" with
                    | VStr s => String.eqb s slug
                    | _ => false
                    end)
          (obj_values (Db.projects d)).

(** The strings that the projects hold as their slug. *)
Definition slugs (d : Db.t) : list string :=
  flat_map (fun p => match prop p "slug" with
                     | VStr s => [s]
                     | _ => []
                     end)
           (obj_values (Db.projects d)).

Fixpoint uniqueSlug_loop (fuel : nat) (d : Db.t) (baseSlug slug : string)
    (counter : nat) : option string :=
  match fuel with
  | O => None
  | S fuel' =>
      if slug_taken d slug
      then uniqueSlug_loop fuel' d baseSlug
             (baseSlug ++ "-" ++ nat_to_string counter) (S counter)
      else Some slug
  end.

Definition uniqueSlug (d : Db.t) (baseSlug : string) : option string :=
  uniqueSlug_loop (S (List.length (Db.projects d))) d baseSlug baseSlug 1.

(** The operations take the ISO strings that [toISOString] returns. *)
Module agents.
Definition create (data : obj value) (id apiKey now now' : string)
    (d : Db.t) : Db.t * obj value :=
  let agent :=
    [ ("id", VStr id);
      ("name", prop data "name");
      ("display_name", prop data "displayName");
      ("bio", js_or (prop data "bio") VNull);
      ("email", js_or (prop data "email") VNull);
      ("avatar_url", js_or (prop data "avatarUrl") VNull);
      ("skills", js_or (prop data "skills") (VArr []));
      ("api_key", VStr apiKey);
      ("created_at", VStr now);
      ("updated_at", VStr now') ] in
  (Db.mk (obj_set id agent (Db.agents d)) (Db.projects d)
     (Db.collaborations d) (Db.updates d) (Db.comments d),
   agent).
End agents.

Module projects.
(** [None]: the call throws, [data.title] having no [toLowerCase], and
    nothing is stored. *)
Definition create (data : obj value) (id now now' : string) (d : Db.t)
    : option (Db.t * obj value) :=
  match prop data "title" with
  | VStr title =>
      match uniqueSlug d (slugify title) with
      | None => None
      | Some slug =>
          let project :=
            [ ("id", VStr id);
              ("slug", VStr slug);
              ("title", VStr title);
              ("description", js_or (prop data "description") VNull);
              ("category", js_or (prop data "category") (VStr "other"));
              ("status", VStr "seeking");
              ("skills_needed", js_or (prop data "skillsNeeded") (VArr []));
              ("max_collaborators",
               js_or (prop data "maxCollaborators") VNull);
              ("creator_id", prop data "creatorId");
              ("created_at", VStr now);
              ("updated_at", VStr now') ] in
          Some (Db.mk (Db.agents d) (obj_set id project (Db.projects d))
                  (Db.collaborations d) (Db.updates d) (Db.comments d),
                project)
      end
  | _ => None
  end.
End projects.

Module collaborations.
Definition create (data : obj value) (id now : string) (d : Db.t)
    : Db.t * obj value :=
  let collab :=
    [ ("id", VStr id);
      ("project_id", prop data "projectId");
      ("agent_id", prop data "agentId");
      ("role", js_or (prop data "role") (VStr "collaborator"));
      ("pitch", js_or (prop data "pitch") VNull);
      ("status", js_or (prop data "status") (VStr "pending"));
      ("joined_at", VStr now) ] in
  (Db.mk (Db.agents d) (Db.projects d)
     (obj_set id collab (Db.collaborations d)) (Db.updates d)
     (Db.comments d),
   collab).
End collaborations.

Module updates.
Definition create (data : obj value) (id now : string) (d : Db.t)
    : Db.t * obj value :=
  let update :=
    [ ("id", VStr id);
      ("project_id", prop data "projectId");
      ("agent_id", prop data "agentId");
      ("content", prop data "content");
      ("created_at", VStr now) ] in
  (Db.mk (Db.agents d) (Db.projects d) (Db.collaborations d)
     (obj_set id update (Db.updates d)) (Db.comments d),
   update).
End updates.

Module comments.
Definition create (data : obj value) (id now : string) (d : Db.t)
    : Db.t * obj value :=
  let comment :=
    [ ("id", VStr id);
      ("project_id", prop data "projectId");
      ("agent_id", prop data "agentId");
      ("content", prop data "content");
      ("created_at", VStr now) ] in
  (Db.mk (Db.agents d) (Db.projects d) (Db.collaborations d)
     (Db.updates d) (obj_set id comment (Db.comments d)),
   comment).
End comments.

(** [db.agents[id]] and the like in the reloaded document. *)
Definition reloaded (collectionName id : string) (d : Db.t) : value :=
  member (member (load (save d)) collectionName) id.

End Raw.

(** ** API keys *)

Definition hex_digit (n : nat) : ascii :=
  nth n (chars "0123456789abcdef") "0"%char.

(** [buf.toString('hex')]: two lower-case digits for each byte. *)
Definition to_hex (buf : list Byte.byte) : string :=
  of_chars
    (flat_map (fun b => [hex_digit (Byte.to_nat b / 16);
                         hex_digit (Byte.to_nat b mod 16)]) buf).

(** [generateApiKey()], from the buffer [crypto.randomBytes(32)] returns. *)
Definition generateApiKey (randomBytes : list Byte.byte) : string :=
  "th_" ++ to_hex randomBytes.

(** The value of a hexadecimal digit. *)
Definition hex_value (c : ascii) : nat :=
  let n := nat_of_ascii c in
  if chr_between 48 57 c then n - 48 else n - 87.

(** ** Vocabulary of the store properties *)

(** The characters a slug is made of. *)
Definition is_url_char (c : ascii) : bool :=
  is_slug_char c || Ascii.eqb c hyphen.

(** A Project passes every filter that [filters] provides. *)
Definition matches (filters : Filters.t) (p : Project.t) : bool :=
  match truthy_str (Filters.category filters) with
  | Some c => String.eqb (Project.category p) c
  | None => true
  end
  && includes
       match truthy_str (Filters.status filters) with
       | Some s => split_comma s
       | None => projects.default_statuses
       end (Project.status p)
  && match truthy_str (Filters.skill filters) with
     | Some k => includes (Project.skills_needed p) k
     | None => true
     end.

(** Every record of a collection is stored under its own [id]. *)
Definition keyed (A : Type) (id : A -> string) (o : obj A) : Prop :=
  Forall (fun kv => id (snd kv) = fst kv) o.

(** ** The HTTP layer

    The handlers of [src/server.js] that change the store, and the
    project listing.  A handler takes what it reads from the request (the
    [Authorization] header, the path parameters, the fields of the JSON
    body) and gives the status code of its response and the store it
    leaves; the response body, which [formatAgent] and [formatProject]
    shape from the records, is not part of the embedding.

    The bodies are those whose fields have the types the API documents:
    strings, arrays of strings, an integer for [maxCollaborators].  On
    these no handler throws, so the [catch] blocks and their 500 are not
    reached.  A field of another type can make a handler throw after the
    store was written, as a [displayName] without a usable [toString]
    does in the template of the registration response; such bodies are
    outside the embedding. *)

Module RegisterBody.
Record t := mk
  { name : option string;
    displayName : option string;
    bio : option string;
    email : option string;
    skills : option (list string) }.
End RegisterBody.

Module ProfileBody.
Record t := mk
  { displayName : option string;
    bio : option (option string);
    email : option (option string);
    avatarUrl : option (option string);
    skills : option (list string) }.
End ProfileBody.

Module ProjectBody.
Record t := mk
  { title : option string;
    description : option string;
    category : option string;
    skillsNeeded : option (list string);
    maxCollaborators : option Z }.
End ProjectBody.

Module ProjectPatchBody.
Record t := mk
  { title : option string;
    description : option (option string);
    category : option string;
    status : option string;
    skillsNeeded : option (list string);
    maxCollaborators : option (option Z) }.
End ProjectPatchBody.

(** The query of [GET /api/v1/projects]. *)
Module ListQuery.
Record t := mk
  { category : option string;
    status : option string;
    skill : option string;
    limit : option string }.
End ListQuery.

Module server.

(** [authHeader.startsWith('Bearer ')] and [authHeader.slice(7)] *)
Definition bearer (authorization : option string) : option string :=
  match authorization with
  | Some authHeader =>
      if String.prefix "Bearer " authHeader
      then Some (of_chars (skipn 7 (chars authHeader)))
      else None
  | None => None
  end.

(** [authenticate]: the agent the request acts for; [None] is the
    response 401. *)
Definition authenticate (authorization : option string) (db : Db.t)
    : option Agent.t :=
  match bearer authorization with
  | Some apiKey => agents.findByApiKey apiKey db
  | None => None
  end.

Definition is_name_char (c : ascii) : bool :=
  chr_between 97 122 c || chr_between 65 90 c || chr_between 48 57 c
  || Ascii.eqb c "_"%char || Ascii.eqb c hyphen.

(** [/^[a-zA-Z0-9_-]+$/.test(name)] *)
Definition url_safe_name (name : string) : bool :=
  match chars name with
  | [] => false
  | l => forallb is_name_char l
  end.

Definition validCategories : list string :=
  ["physical"; "software"; "business"; "experiment"; "other"].

(** [POST /api/v1/agents/register] *)
Definition register (body : RegisterBody.t) (id apiKey : string)
    (now now' : Z) (db : Db.t) : nat * Db.t :=
  match truthy_str (RegisterBody.name body),
        truthy_str (RegisterBody.displayName body) with
  | Some name, Some displayName =>
      if negb (url_safe_name name) then (400, db)
      else if agents.nameExists name db then (409, db)
      else
        (201,
         fst (agents.create
                {| AgentData.name := name;
                   AgentData.displayName := displayName;
                   AgentData.bio := RegisterBody.bio body;
                   AgentData.email := RegisterBody.email body;
                   AgentData.avatarUrl := None;
                   AgentData.skills := RegisterBody.skills body |}
                id apiKey now now' db))
  | _, _ => (400, db)
  end.

(** The object [updates] that [PATCH /api/v1/agents/me] builds. *)
Definition profile_patch (body : ProfileBody.t) : AgentPatch.t :=
  {| AgentPatch.id := None;
     AgentPatch.name := None;
     AgentPatch.display_name := ProfileBody.displayName body;
     AgentPatch.bio := ProfileBody.bio body;
     AgentPatch.email := ProfileBody.email body;
     AgentPatch.avatar_url := ProfileBody.avatarUrl body;
     AgentPatch.skills := ProfileBody.skills body;
     AgentPatch.api_key := None;
     AgentPatch.created_at := None |}.

(** [Object.keys(updates).length === 0] *)
Definition profile_empty (body : ProfileBody.t) : bool :=
  match ProfileBody.displayName body, ProfileBody.bio body,
        ProfileBody.email body, ProfileBody.avatarUrl body,
        ProfileBody.skills body with
  | None, None, None, None, None => true
  | _, _, _, _, _ => false
  end.

(** [PATCH /api/v1/agents/me]; formatting a missing agent throws, which
    Express answers with 500. *)
Definition patch_me (authorization : option string) (body : ProfileBody.t)
    (now : Z) (db : Db.t) : nat * Db.t :=
  match authenticate authorization db with
  | None => (401, db)
  | Some agent =>
      if profile_empty body then (400, db)
      else
        match agents.update (Agent.id agent) (profile_patch body) now db with
        | (db', Some _) => (200, db')
        | (db', None) => (500, db')
        end
  end.

(** [POST /api/v1/projects]: the project, then the Collaboration of its
    creator. *)
Definition create_project (authorization : option string)
    (body : ProjectBody.t) (id : string) (now now' : Z)
    (collabId : string) (collabNow : Z) (db : Db.t) : nat * Db.t :=
  match authenticate authorization db with
  | None => (401, db)
  | Some agent =>
      match truthy_str (ProjectBody.title body) with
      | None => (400, db)
      | Some title =>
          if match truthy_str (ProjectBody.category body) with
             | Some category => negb (includes validCategories category)
             | None => false
             end
          then (400, db)
          else
            match projects.create
                    {| ProjectData.title := title;
                       ProjectData.description := ProjectBody.description body;
                       ProjectData.category := ProjectBody.category body;
                       ProjectData.skillsNeeded :=
                         ProjectBody.skillsNeeded body;
                       ProjectData.maxCollaborators :=
                         ProjectBody.maxCollaborators body;
                       ProjectData.creatorId := Agent.id agent |}
                    id now now' db with
            | None => (500, db)
            | Some (db1, project) =>
                (201,
                 fst (collaborations.create
                        {| CollaborationData.projectId := Project.id project;
                           CollaborationData.agentId := Agent.id agent;
                           CollaborationData.role := Some "creator";
                           CollaborationData.pitch := None;
                           CollaborationData.status := Some "accepted" |}
                        collabId collabNow db1))
            end
      end
  end.

(** The object [updateData] that [PATCH /api/v1/projects/:slug] builds. *)
Definition project_patch (body : ProjectPatchBody.t) : ProjectPatch.t :=
  {| ProjectPatch.id := None;
     ProjectPatch.slug := None;
     ProjectPatch.title := ProjectPatchBody.title body;
     ProjectPatch.description := ProjectPatchBody.description body;
     ProjectPatch.category := ProjectPatchBody.category body;
     ProjectPatch.status := ProjectPatchBody.status body;
     ProjectPatch.skills_needed := ProjectPatchBody.skillsNeeded body;
     ProjectPatch.max_collaborators := ProjectPatchBody.maxCollaborators body;
     ProjectPatch.creator_id := None;
     ProjectPatch.created_at := None |}.

Definition project_patch_empty (body : ProjectPatchBody.t) : bool :=
  match ProjectPatchBody.title body, ProjectPatchBody.description body,
        ProjectPatchBody.category body, ProjectPatchBody.status body,
        ProjectPatchBody.skillsNeeded body,
        ProjectPatchBody.maxCollaborators body with
  | None, None, None, None, None, None => true
  | _, _, _, _, _, _ => false
  end.

(** [PATCH /api/v1/projects/:slug] *)
Definition patch_project (authorization : option string) (slug : string)
    (body : ProjectPatchBody.t) (now : Z) (db : Db.t) : nat * Db.t :=
  match authenticate authorization db with
  | None => (401, db)
  | Some agent =>
      match projects.findBySlug slug db with
      | None => (404, db)
      | Some project =>
          if negb (String.eqb (Project.creator_id project) (Agent.id agent))
          then (403, db)
          else if project_patch_empty body then (400, db)
          else
            match projects.update (Project.id project) (project_patch body)
                    now db with
            | (db', Some _) => (200, db')
            | (db', None) => (500, db')
            end
      end
  end.

(** [DELETE /api/v1/projects/:slug] *)
Definition delete_project (authorization : option string) (slug : string)
    (db : Db.t) : nat * Db.t :=
  match authenticate authorization db with
  | None => (401, db)
  | Some agent =>
      match projects.findBySlug slug db with
      | None => (404, db)
      | Some project =>
          if negb (String.eqb (Project.creator_id project) (Agent.id agent))
          then (403, db)
          else (200, projects.delete (Project.id project) db)
      end
  end.

(** [POST /api/v1/projects/:slug/join] *)
Definition join (authorization : option string) (slug : string)
    (pitch : option string) (id : string) (now : Z) (db : Db.t)
    : nat * Db.t :=
  match authenticate authorization db with
  | None => (401, db)
  | Some agent =>
      match projects.findBySlug slug db with
      | None => (404, db)
      | Some project =>
          match collaborations.findByProjectAndAgent
                  (Project.id project) (Agent.id agent) db with
          | Some _ => (409, db)
          | None =>
              (201,
               fst (collaborations.create
                      {| CollaborationData.projectId := Project.id project;
                         CollaborationData.agentId := Agent.id agent;
                         CollaborationData.role := None;
                         CollaborationData.pitch := pitch;
                         CollaborationData.status := Some "pending" |}
                      id now db))
          end
      end
  end.

(** [POST /api/v1/projects/:slug/leave] *)
Definition leave (authorization : option string) (slug : string) (db : Db.t)
    : nat * Db.t :=
  match authenticate authorization db with
  | None => (401, db)
  | Some agent =>
      match projects.findBySlug slug db with
      | None => (404, db)
      | Some project =>
          if String.eqb (Project.creator_id project) (Agent.id agent)
          then (400, db)
          else
            (200,
             collaborations.delete (Project.id project) (Agent.id agent) db)
      end
  end.

(** The object [{ status }] of the accept/decline handler. *)
Definition status_patch (status : string) : CollaborationPatch.t :=
  CollaborationPatch.mk None None None None None (Some status) None.

(** [PATCH /api/v1/projects/:slug/collaborators/:agentName] *)
Definition manage_collaborator (authorization : option string)
    (slug agentName : string) (status : option string) (db : Db.t)
    : nat * Db.t :=
  match authenticate authorization db with
  | None => (401, db)
  | Some creator =>
      match projects.findBySlug slug db with
      | None => (404, db)
      | Some project =>
          if negb (String.eqb (Project.creator_id project) (Agent.id creator))
          then (403, db)
          else
            match agents.findByName agentName db with
            | None => (404, db)
            | Some agent =>
                match status with
                | Some st =>
                    if negb (includes ["accepted"; "declined"] st)
                    then (400, db)
                    else
                      match collaborations.findByProjectAndAgent
                              (Project.id project) (Agent.id agent) db with
                      | None => (404, db)
                      | Some collab =>
                          (200,
                           fst (collaborations.update
                                  (Collaboration.id collab)
                                  (status_patch st) db))
                      end
                | None => (400, db)
                end
            end
      end
  end.

(** [POST /api/v1/projects/:slug/updates] *)
Definition post_update (authorization : option string) (slug : string)
    (content : option string) (id : string) (now now' : Z) (db : Db.t)
    : nat * Db.t :=
  match authenticate authorization db with
  | None => (401, db)
  | Some agent =>
      match projects.findBySlug slug db with
      | None => (404, db)
      | Some project =>
          match collaborations.findByProjectAndAgent
                  (Project.id project) (Agent.id agent) db with
          | None => (403, db)
          | Some collab =>
              if negb (String.eqb (Collaboration.status collab) "accepted")
              then (403, db)
              else
                match truthy_str content with
                | None => (400, db)
                | Some content =>
                    let db1 :=
                      fst (updates.create
                             {| EntryData.projectId := Project.id project;
                                EntryData.agentId := Agent.id agent;
                                EntryData.content := content |}
                             id now db) in
                    (201,
                     fst (projects.update (Project.id project)
                            ProjectPatch.none now' db1))
                end
          end
      end
  end.

(** [POST /api/v1/projects/:slug/comments] *)
Definition post_comment (authorization : option string) (slug : string)
    (content : option string) (id : string) (now : Z) (db : Db.t)
    : nat * Db.t :=
  match authenticate authorization db with
  | None => (401, db)
  | Some agent =>
      match projects.findBySlug slug db with
      | None => (404, db)
      | Some project =>
          match truthy_str content with
          | None => (400, db)
          | Some content =>
              (201,
               fst (comments.create
                      {| EntryData.projectId := Project.id project;
                         EntryData.agentId := Agent.id agent;
                         EntryData.content := content |}
                      id now db))
          end
      end
  end.

(** [Math.min(parseInt(limit) || 20, 100)]; [parsed] is what [parseInt]
    returns, [None] for [NaN]. *)
Definition list_limit (parsed : option Z) : Z :=
  Z.min (or_else (truthy_num parsed) 20%Z) 100%Z.

(** [GET /api/v1/projects]: the projects listed, each with its count of
    accepted collaborators.  [parseInt] is the built-in, applied to the
    [limit] of the query when there is one; [exponent_head] is its part
    that [projects.findAll] leaves open. *)
Definition list_projects (parseInt : string -> option Z)
    (exponent_head : Z -> Z) (query : ListQuery.t) (db : Db.t)
    : list (Project.t * nat) :=
  let projectList :=
    projects.findAll exponent_head
      {| Filters.category := ListQuery.category query;
         Filters.status := ListQuery.status query;
         Filters.skill := ListQuery.skill query;
         Filters.limit :=
           Some (list_limit
                   match ListQuery.limit query with
                   | Some s => parseInt s
                   | None => None
                   end) |}
      db in
  map (fun p => (p, collaborations.countAccepted (Project.id p) db))
      projectList.

(** One request that may change the store, with the values its handler
    draws from [uuidv4], [generateApiKey] and [new Date]. *)
Inductive request : Type :=
| Register (body : RegisterBody.t) (id apiKey : string) (now now' : Z)
| PatchMe (authorization : option string) (body : ProfileBody.t) (now : Z)
| CreateProject (authorization : option string) (body : ProjectBody.t)
    (id : string) (now now' : Z) (collabId : string) (collabNow : Z)
| PatchProject (authorization : option string) (slug : string)
    (body : ProjectPatchBody.t) (now : Z)
| DeleteProject (authorization : option string) (slug : string)
| Join (authorization : option string) (slug : string)
    (pitch : option string) (id : string) (now : Z)
| Leave (authorization : option string) (slug : string)
| ManageCollaborator (authorization : option string)
    (slug agentName : string) (status : option string)
| PostUpdate (authorization : option string) (slug : string)
    (content : option string) (id : string) (now now' : Z)
| PostComment (authorization : option string) (slug : string)
    (content : option string) (id : string) (now : Z).

Definition handle (r : request) (db : Db.t) : nat * Db.t :=
  match r with
  | Register body id apiKey now now' => register body id apiKey now now' db
  | PatchMe authorization body now => patch_me authorization body now db
  | CreateProject authorization body id now now' collabId collabNow =>
      create_project authorization body id now now' collabId collabNow db
  | PatchProject authorization slug body now =>
      patch_project authorization slug body now db
  | DeleteProject authorization slug => delete_project authorization slug db
  | Join authorization slug pitch id now =>
      join authorization slug pitch id now db
  | Leave authorization slug => leave authorization slug db
  | ManageCollaborator authorization slug agentName status =>
      manage_collaborator authorization slug agentName status db
  | PostUpdate authorization slug content id now now' =>
      post_update authorization slug content id now now' db
  | PostComment authorization slug content id now =>
      post_comment authorization slug content id now db
  end.

Definition unused (A : Type) (id : string) (o : obj A) : bool :=
  match obj_get id o with
  | Some _ => false
  | None => true
  end.

(** The identifiers the request draws are new to the collections they go
    into, as random UUIDs are. *)
Definition fresh (r : request) (db : Db.t) : bool :=
  match r with
  | Register _ id _ _ _ => unused id (Db.agents db)
  | CreateProject _ _ id _ _ collabId _ =>
      unused id (Db.projects db) && unused collabId (Db.collaborations db)
  | Join _ _ _ id _ => unused id (Db.collaborations db)
  | PostUpdate _ _ _ id _ _ => unused id (Db.updates db)
  | PostComment _ _ _ id _ => unused id (Db.comments db)
  | _ => true
  end.

(** The store after a sequence of requests. *)
Fixpoint serve (rs : list request) (db : Db.t) : Db.t :=
  match rs with
  | [] => db
  | r :: rs' => serve rs' (snd (handle r db))
  end.

(** Each request of the sequence draws fresh identifiers. *)
Fixpoint all_fresh (rs : list request) (db : Db.t) : bool :=
  match rs with
  | [] => true
  | r :: rs' => fresh r db && all_fresh rs' (snd (handle r db))
  end.

End server.

(** A session: Ada registers, a second "ada" is turned away, Ada opens a
    project, Bob registers, joins it (twice) and is accepted. *)
Module Session.
Definition ada : option string := Some "Bearer th_a".
Definition bob : option string := Some "Bearer th_b".

Definition requests : list server.request :=
  [ server.Register
      (RegisterBody.mk (Some "Ada") (Some "Ada L.") None None None)
      "u1" "th_a" 1 1;
    server.Register
      (RegisterBody.mk (Some "ada") (Some "Another") None None None)
      "u2" "th_x" 2 2;
    server.CreateProject ada
      (ProjectBody.mk (Some "Self-Balancing Robot") None None None None)
      "p1" 3 3 "c1" 3;
    server.Register
      (RegisterBody.mk (Some "bob") (Some "Bob") None None None)
      "u3" "th_b" 4 4;
    server.Join bob "self-balancing-robot" None "c2" 5;
    server.Join bob "self-balancing-robot" None "c3" 6;
    server.ManageCollaborator ada "self-balancing-robot" "BOB"
      (Some "accepted") ].
End Session.

(** ** Vocabulary of the HTTP layer properties *)

(** No two Agents have the same name up to case. *)
Definition names_unique (db : Db.t) : Prop :=
  NoDup (map (fun a => toLowerCase (Agent.name a))
             (obj_values (Db.agents db))).

(** No two Collaborations join the same agent to the same project. *)
Definition pairs_unique (db : Db.t) : Prop :=
  NoDup (map (fun c => (Collaboration.project_id c, Collaboration.agent_id c))
             (obj_values (Db.collaborations db))).

(** Every Collaboration, Update and Comment belongs to a Project of the
    store. *)
Definition no_orphans (db : Db.t) : Prop :=
  (forall c, In c (obj_values (Db.collaborations db)) ->
             In (Collaboration.project_id c) (obj_keys (Db.projects db)))
  /\ (forall u, In u (obj_values (Db.updates db)) ->
                In (Update.project_id u) (obj_keys (Db.projects db)))
  /\ (forall c, In c (obj_values (Db.comments db)) ->
                In (Comment.project_id c) (obj_keys (Db.projects db))).

(** Every Project has the Collaboration of its creator, in the role
    "creator". *)
Definition creators_are_members (db : Db.t) : Prop :=
  forall p, In p (obj_values (Db.projects db)) ->
    exists c, In c (obj_values (Db.collaborations db))
              /\ Collaboration.project_id c = Project.id p
              /\ Collaboration.agent_id c = Project.creator_id p
              /\ Collaboration.role c = "creator".

(** Agents, Projects and Collaborations sit under their own identifiers. *)
Definition db_keyed (db : Db.t) : Prop :=
  keyed Agent.id (Db.agents db) /\ keyed Project.id (Db.projects db)
  /\ keyed Collaboration.id (Db.collaborations db).

(** What every request keeps. *)
Definition api_inv (db : Db.t) : Prop :=
  db_wf db /\ db_keyed db /\ slugs_unique db /\ names_unique db
  /\ pairs_unique db /\ no_orphans db /\ creators_are_members db.

(** * Properties *)

Unset Implicit Arguments.

(** ** Worked examples *)

Example slugify_robot :
  slugify "Self-Balancing Robot" = "self-balancing-robot".
Proof. reflexivity. Qed.

Example slugify_punctuation :
  slugify "  --Hello,   World!! " = "hello-world".
Proof. reflexivity. Qed.

(** The cut at 50 characters comes after the trimming and may leave a
    hyphen at the end. *)
Example slugify_cut :
  slugify "aaaaaaaaaaaaaaaaaaaaaaaaaaaaaaaaaaaaaaaaaaaaaaaaa b"
  = "aaaaaaaaaaaaaaaaaaaaaaaaaaaaaaaaaaaaaaaaaaaaaaaaa-".
Proof. reflexivity. Qed.

Example split_comma_pieces :
  split_comma "completed,abandoned" = ["completed"; "abandoned"]
  /\ split_comma "" = [""] /\ split_comma "a," = ["a"; ""].
Proof. repeat split; reflexivity. Qed.

(** The scenario of the specification: a second Project with the title of
    the first gets the suffix [-1]. *)
Example second_robot_slug :
  let data := ProjectData.mk "Self-Balancing Robot" None None None None "ada" in
  option_map slugs
    (run [ProjectCreate data "p1" 1 1; ProjectCreate data "p2" 2 2] Db.empty)
  = Some ["self-balancing-robot"; "self-balancing-robot-1"].
Proof. reflexivity. Qed.

(** A negative limit cuts from the end, as [slice] does. *)
Example slice0_negative : slice0 (-1) [1; 2; 3]%Z = [1; 2]%Z.
Proof. reflexivity. Qed.

(** ** Strings *)

Lemma chars_of_chars (l : list ascii) : chars (of_chars l) = l.
Proof. apply list_ascii_of_string_of_list_ascii. Qed.

Lemma of_chars_chars (s : string) : of_chars (chars s) = s.
Proof. apply string_of_list_ascii_of_string. Qed.

Lemma append_cancel_l (a b c : string) : a ++ b = a ++ c -> b = c.
Proof.
  induction a as [|x a IH]; simpl; intros H.
  - exact H.
  - injection H as H. auto.
Qed.

Lemma append_length (a b : string) :
  String.length (a ++ b) = (String.length a + String.length b)%nat.
Proof. induction a; simpl; auto. Qed.

Lemma nat_to_string_inj (n m : nat) :
  nat_to_string n = nat_to_string m -> n = m.
Proof.
  unfold nat_to_string. intros H.
  apply DecimalNat.Unsigned.to_uint_inj.
  assert (E : Some (Nat.to_uint n) = Some (Nat.to_uint m)).
  { rewrite <- (NilEmpty.usu (Nat.to_uint n)), <- (NilEmpty.usu (Nat.to_uint m)).
    now rewrite H. }
  now injection E.
Qed.

Lemma candidate_inj (base : string) (j k : nat) :
  SlugSpec.candidate base j = SlugSpec.candidate base k -> j = k.
Proof.
  destruct j as [|j], k as [|k]; simpl; intros H.
  - reflexivity.
  - apply (f_equal String.length) in H.
    rewrite append_length in H. simpl in H. lia.
  - apply (f_equal String.length) in H.
    rewrite append_length in H. simpl in H. lia.
  - apply append_cancel_l in H. injection H as H.
    now apply nat_to_string_inj.
Qed.

(** ** Objects *)

Section ObjFacts.
Variable A : Type.
Implicit Types (o : obj A) (k : string) (v : A).

Lemma obj_get_set_same k v o : obj_get k (obj_set k v o) = Some v.
Proof.
  induction o as [|[k' v'] o IH]; simpl.
  - now rewrite String.eqb_refl.
  - destruct (String.eqb k k') eqn:E; simpl.
    + now rewrite String.eqb_refl.
    + now rewrite E.
Qed.

Lemma obj_get_set_other k k' v o :
  k <> k' -> obj_get k' (obj_set k v o) = obj_get k' o.
Proof.
  intros Hne. induction o as [|[k0 v0] o IH]; simpl.
  - destruct (String.eqb k' k) eqn:E; [|reflexivity].
    apply String.eqb_eq in E. congruence.
  - destruct (String.eqb k k0) eqn:E; simpl.
    + apply String.eqb_eq in E. subst k0.
      destruct (String.eqb k' k) eqn:E'; [|reflexivity].
      apply String.eqb_eq in E'. congruence.
    + now rewrite IH.
Qed.

Lemma obj_get_In k v o : obj_get k o = Some v -> In (k, v) o.
Proof.
  induction o as [|[k' v'] o IH]; simpl; [discriminate|].
  destruct (String.eqb k k') eqn:E.
  - apply String.eqb_eq in E. intros [= ->]. subst. now left.
  - auto.
Qed.

Lemma obj_get_None k o : obj_get k o = None <-> ~ In k (obj_keys o).
Proof.
  induction o as [|[k' v'] o IH]; simpl.
  - tauto.
  - destruct (String.eqb k k') eqn:E.
    + apply String.eqb_eq in E. subst. split; [discriminate|tauto].
    + apply String.eqb_neq in E. rewrite IH. split.
      * intros H [H'|H']; [congruence|tauto].
      * tauto.
Qed.

Lemma In_obj_get k v o : obj_wf o -> In (k, v) o -> obj_get k o = Some v.
Proof.
  unfold obj_wf. induction o as [|[k' v'] o IH]; simpl; [tauto|].
  intros Hnd [H|H].
  - injection H as -> ->. now rewrite String.eqb_refl.
  - inversion Hnd as [|? ? Hnot Hnd']; subst.
    destruct (String.eqb k k') eqn:E.
    + apply String.eqb_eq in E. subst. exfalso. apply Hnot.
      apply (in_map fst) in H. exact H.
    + auto.
Qed.

(** A fresh key appends the entry. *)
Lemma obj_set_fresh k v o :
  obj_get k o = None -> obj_set k v o = (o ++ [(k, v)])%list.
Proof.
  induction o as [|[k' v'] o IH]; simpl; [reflexivity|].
  destruct (String.eqb k k'); [discriminate|].
  intros H. now rewrite IH.
Qed.

Lemma obj_keys_set_present k v o :
  In k (obj_keys o) -> obj_keys (obj_set k v o) = obj_keys o.
Proof.
  induction o as [|[k' v'] o IH]; simpl; [tauto|].
  destruct (String.eqb k k') eqn:E; simpl.
  - apply String.eqb_eq in E. now subst.
  - apply String.eqb_neq in E. intros [H|H]; [congruence|].
    now rewrite IH.
Qed.

Lemma obj_wf_set k v o : obj_wf o -> obj_wf (obj_set k v o).
Proof.
  unfold obj_wf. intros Hnd.
  destruct (obj_get k o) eqn:E.
  - rewrite obj_keys_set_present; [exact Hnd|].
    apply obj_get_In in E. apply (in_map fst) in E. exact E.
  - rewrite obj_set_fresh by exact E.
    unfold obj_keys. rewrite map_app. simpl.
    apply obj_get_None in E.
    apply NoDup_app; [exact Hnd| | ].
    + repeat constructor. simpl. tauto.
    + intros x Hx [Hk|[]]. subst. exact (E Hx).
Qed.

Lemma obj_keys_delete k o :
  obj_keys (obj_delete k o)
  = filter (fun k' => negb (String.eqb k k')) (obj_keys o).
Proof.
  unfold obj_delete, obj_keys.
  induction o as [|[k' v'] o IH]; simpl; [reflexivity|].
  destruct (String.eqb k k'); simpl; now rewrite IH.
Qed.

Lemma obj_wf_filter (f : string * A -> bool) o :
  obj_wf o -> obj_wf (filter f o).
Proof.
  unfold obj_wf, obj_keys.
  induction o as [|kv o IH]; simpl; intros Hnd; [constructor|].
  inversion Hnd as [|? ? Hnot Hnd']; subst.
  destruct (f kv); simpl; [|auto].
  constructor; [|auto].
  intros H. apply Hnot. apply in_map_iff in H as [x [Hx Hin]].
  apply filter_In in Hin as [Hin _]. rewrite <- Hx. now apply in_map.
Qed.

Lemma obj_wf_delete k o : obj_wf o -> obj_wf (obj_delete k o).
Proof. apply obj_wf_filter. Qed.

(** ** Fields along a collection

    [f] reads a field of a record; the lemmas follow the list of that
    field over the values of a collection. *)
Variable B : Type.
Variable f : A -> B.

Lemma field_set_new k v o :
  NoDup (map f (obj_values o)) ->
  ~ In (f v) (map f (obj_values o)) ->
  NoDup (map f (obj_values (obj_set k v o))).
Proof.
  induction o as [|[k' v'] o IH]; simpl; intros Hnd Hnot.
  - repeat constructor. simpl. tauto.
  - inversion Hnd as [|? ? Hn Hnd']; subst.
    destruct (String.eqb k k'); simpl.
    + constructor; [tauto|exact Hnd'].
    + constructor.
      * intros Hin. apply in_map_iff in Hin as [x [Hx Hin]].
        apply in_map_iff in Hin as [[k0 v0] [Hv0 Hin]]. simpl in Hv0. subst x.
        assert (Hcase : v0 = v \/ In (k0, v0) o).
        { clear - Hin. induction o as [|[k1 v1] o IH]; simpl in *.
          - destruct Hin as [H|[]]. injection H as _ H. now left.
          - destruct (String.eqb k k1); simpl in Hin.
            + destruct Hin as [H|H]; [injection H as _ H; now left|].
              right. now right.
            + destruct Hin as [H|H]; [right; now left|].
              destruct (IH H) as [H'|H']; [now left|right; now right]. }
        destruct Hcase as [->|Hin'].
        -- apply Hnot. left. now symmetry.
        -- apply Hn. rewrite <- Hx.
           apply in_map. apply (in_map snd) in Hin'. exact Hin'.
      * apply IH; [exact Hnd'|tauto].
Qed.

Lemma field_set_same k v v0 o :
  obj_get k o = Some v0 -> f v = f v0 ->
  map f (obj_values (obj_set k v o)) = map f (obj_values o).
Proof.
  induction o as [|[k' v'] o IH]; simpl; [discriminate|].
  destruct (String.eqb k k'); simpl.
  - intros [= ->] ->. reflexivity.
  - intros H1 H2. now rewrite IH.
Qed.

Lemma field_filter (g : string * A -> bool) o :
  NoDup (map f (obj_values o)) ->
  NoDup (map f (obj_values (filter g o))).
Proof.
  induction o as [|kv o IH]; simpl; intros Hnd; [constructor|].
  inversion Hnd as [|? ? Hn Hnd']; subst.
  destruct (g kv); simpl; [|auto].
  constructor; [|auto].
  intros Hin. apply Hn.
  apply in_map_iff in Hin as [x [Hx Hin]]. rewrite <- Hx. apply in_map.
  apply in_map_iff in Hin as [y [Hy Hin]]. rewrite <- Hy.
  apply filter_In in Hin as [Hin _]. now apply in_map.
Qed.
End ObjFacts.

(** ** The slug loop *)

Lemma slug_taken_In (db : Db.t) (s : string) :
  slug_taken db s = true <-> In s (slugs db).
Proof.
  unfold slug_taken, slugs. rewrite existsb_exists, in_map_iff.
  split; intros [p [H1 H2]].
  - exists p. split; [|exact H1]. now apply String.eqb_eq.
  - exists p. split; [exact H2|]. now apply String.eqb_eq.
Qed.

Lemma slug_taken_not_In (db : Db.t) (s : string) :
  slug_taken db s = false <-> ~ In s (slugs db).
Proof.
  rewrite <- slug_taken_In. destruct (slug_taken db s); split; congruence.
Qed.

(** The loop, entered at candidate [k], stops at the first free candidate
    from [k] on. *)
Lemma uniqueSlug_loop_Some (db : Db.t) (base : string) :
  forall fuel k s,
    uniqueSlug_loop fuel db base (SlugSpec.candidate base k) (S k) = Some s ->
    exists m,
      (k <= m)%nat /\ s = SlugSpec.candidate base m /\ ~ In s (slugs db)
      /\ forall j, (k <= j < m)%nat -> In (SlugSpec.candidate base j) (slugs db).
Proof.
  induction fuel as [|fuel IH]; intros k s; simpl; [discriminate|].
  destruct (slug_taken db (SlugSpec.candidate base k)) eqn:E.
  - intros H. apply (IH (S k)) in H as [m [Hm [Hs [Hfree Hbelow]]]].
    exists m. repeat split; auto; [lia|].
    intros j Hj. destruct (Nat.eq_dec j k) as [->|Hne].
    + now apply slug_taken_In.
    + apply Hbelow. lia.
  - intros [= <-]. exists k. repeat split; auto.
    + now apply slug_taken_not_In.
    + intros j Hj. lia.
Qed.

(** When the fuel runs out, every candidate the loop looked at is taken. *)
Lemma uniqueSlug_loop_None (db : Db.t) (base : string) :
  forall fuel k,
    uniqueSlug_loop fuel db base (SlugSpec.candidate base k) (S k) = None ->
    forall j, (k <= j < k + fuel)%nat ->
              In (SlugSpec.candidate base j) (slugs db).
Proof.
  induction fuel as [|fuel IH]; intros k; simpl; [intros _ j Hj; lia|].
  destruct (slug_taken db (SlugSpec.candidate base k)) eqn:E; [|discriminate].
  intros H j Hj. destruct (Nat.eq_dec j k) as [->|Hne].
  - now apply slug_taken_In.
  - apply (IH (S k) H). lia.
Qed.

Lemma slugs_length (db : Db.t) :
  List.length (slugs db) = List.length (Db.projects db).
Proof. unfold slugs, obj_values. now rewrite !length_map. Qed.

(** [uniqueSlug] returns: among one candidate more than there are
    projects, one is free. *)
Lemma uniqueSlug_total (db : Db.t) (base : string) :
  exists s, uniqueSlug db base = Some s.
Proof.
  unfold uniqueSlug.
  destruct (uniqueSlug_loop (S (List.length (Db.projects db))) db base base 1)
    as [s|] eqn:E; [now exists s|].
  exfalso.
  pose proof (uniqueSlug_loop_None db base _ 0 E) as Hall.
  set (n := List.length (Db.projects db)) in *.
  assert (Hincl : incl (map (SlugSpec.candidate base) (seq 0 (S n))) (slugs db)).
  { intros x Hx. apply in_map_iff in Hx as [j [<- Hj]].
    apply in_seq in Hj. apply Hall. lia. }
  assert (Hnd : NoDup (map (SlugSpec.candidate base) (seq 0 (S n)))).
  { apply Injective_map_NoDup; [|apply seq_NoDup].
    intros j k. apply candidate_inj. }
  pose proof (NoDup_incl_length Hnd Hincl) as Hlen.
  rewrite length_map, length_seq, slugs_length in Hlen. fold n in Hlen. lia.
Qed.

Lemma uniqueSlug_first_free (db : Db.t) (base s : string) :
  uniqueSlug db base = Some s -> SlugSpec.first_free db base s.
Proof.
  unfold uniqueSlug. intros H.
  apply (uniqueSlug_loop_Some db base _ 0) in H as [m [_ [Hs [Hfree Hbelow]]]].
  exists m. repeat split; auto. intros j Hj. apply Hbelow. lia.
Qed.

Lemma projects_create_total (data : ProjectData.t) (id : string)
    (now now' : Z) (db : Db.t) :
  exists db' p, projects.create data id now now' db = Some (db', p).
Proof.
  unfold projects.create.
  destruct (uniqueSlug_total db (slugify (ProjectData.title data))) as [s ->].
  eauto.
Qed.

Lemma exec_total (o : op) (db : Db.t) : exists db', exec o db = Some db'.
Proof.
  destruct o; simpl; eauto.
  destruct (projects_create_total data id now now' db) as [db' [p ->]].
  simpl. eauto.
Qed.

Lemma run_total (ops : list op) :
  forall db, exists db', run ops db = Some db'.
Proof.
  induction ops as [|o ops IH]; intros db; simpl; [eauto|].
  destruct (exec_total o db) as [db' ->]. apply IH.
Qed.

(** ** Slug uniqueness along runs *)

Lemma projects_create_slugs_unique (data : ProjectData.t) (id : string)
    (now now' : Z) (db db' : Db.t) (p : Project.t) :
  slugs_unique db ->
  projects.create data id now now' db = Some (db', p) ->
  slugs_unique db'.
Proof.
  unfold projects.create, slugs_unique. intros Hnd.
  destruct (uniqueSlug db (slugify (ProjectData.title data))) as [s|] eqn:E;
    [|discriminate].
  intros [= <- <-]. apply uniqueSlug_first_free in E as [k [_ [Hfree _]]].
  unfold slugs in *. simpl. now apply field_set_new.
Qed.

Lemma projects_update_slugs (id : string) (data : ProjectPatch.t) (now : Z)
    (db : Db.t) :
  ProjectPatch.slug data = None ->
  slugs (fst (projects.update id data now db)) = slugs db.
Proof.
  unfold projects.update, slugs. intros Hd.
  destruct (obj_get id (Db.projects db)) as [p|] eqn:E; simpl; [|reflexivity].
  apply field_set_same with (v0 := p); [exact E|].
  simpl. now rewrite Hd.
Qed.

Lemma exec_slugs_unique (o : op) (db db' : Db.t) :
  sets_slug o = false -> slugs_unique db -> exec o db = Some db' ->
  slugs_unique db'.
Proof.
  destruct o; simpl; intros Hs Hnd H;
    try (injection H as <-; exact Hnd).
  - injection H as <-. unfold agents.update.
    destruct (obj_get id (Db.agents db)); exact Hnd.
  - destruct (projects.create data id now now' db) as [[d p]|] eqn:E;
      [|discriminate].
    injection H as <-. eapply projects_create_slugs_unique; eauto.
  - injection H as <-. unfold slugs_unique.
    rewrite projects_update_slugs; [exact Hnd|].
    destruct (ProjectPatch.slug data); [discriminate|reflexivity].
  - injection H as <-. unfold slugs_unique, slugs, projects.delete. simpl.
    now apply field_filter.
  - injection H as <-. unfold collaborations.update.
    destruct (obj_get id (Db.collaborations db)); exact Hnd.
  - injection H as <-. unfold collaborations.delete.
    destruct (collaborations.findByProjectAndAgent projectId agentId db);
      exact Hnd.
Qed.

Lemma run_slugs_unique (ops : list op) :
  forall db db',
    forallb (fun o => negb (sets_slug o)) ops = true ->
    slugs_unique db -> run ops db = Some db' -> slugs_unique db'.
Proof.
  induction ops as [|o ops IH]; simpl; intros db db' Hops Hnd Hrun.
  - now injection Hrun as <-.
  - apply andb_prop in Hops as [Ho Hops].
    destruct (exec o db) as [d|] eqn:E; [|discriminate].
    apply (IH d db' Hops); [|exact Hrun].
    apply (exec_slugs_unique o db d); auto.
    now destruct (sets_slug o).
Qed.

(** C1, as stated, fails: [projects.update] merges whatever fields its
    data carries, so an update that carries the slug of another Project
    leaves two Projects with one slug. *)
Lemma slug_unique_counterexample :
  ~ (forall db, reachable db -> slugs_unique db).
Proof.
  intros H.
  pose (pd := fun t => ProjectData.mk t None None None None "ada").
  pose (patch := ProjectPatch.mk None (Some "a") None None None None None
                   None None None).
  pose (ops := [ ProjectCreate (pd "a") "p1" 1 1;
                 ProjectCreate (pd "b") "p2" 2 2;
                 ProjectUpdate "p2" patch 3 ]).
  destruct (run ops Db.empty) as [db|] eqn:E; [|discriminate E].
  assert (Hs : slugs db = ["a"; "a"]).
  { vm_compute in E. injection E as <-. reflexivity. }
  assert (Hr : reachable db) by (exists ops; exact E).
  apply H in Hr. unfold slugs_unique in Hr. rewrite Hs in Hr.
  inversion Hr as [|? ? Hnot _]. apply Hnot. now left.
Qed.

(** C1, amended: after any sequence of store operations in which no
    [projects.update] carries a [slug] field, the run completes and no two
    Project records have equal slugs; [projects.create] with identical
    titles is included. *)
Theorem slug_unique_without_slug_updates (ops : list op) :
  forallb (fun o => negb (sets_slug o)) ops = true ->
  exists db, run ops Db.empty = Some db /\ slugs_unique db.
Proof.
  intros Hops. destruct (run_total ops Db.empty) as [db Hrun].
  exists db. split; [exact Hrun|].
  apply (run_slugs_unique ops Db.empty db Hops); [|exact Hrun].
  constructor.
Qed.

Lemma slug_unique_without_slug_updates_witness :
  let pd := ProjectData.mk "Self-Balancing Robot" None None None None "ada" in
  let ops := [ ProjectCreate pd "p1" 1 1; ProjectCreate pd "p2" 2 2;
               ProjectUpdate "p1" ProjectPatch.none 3; ProjectDelete "p2";
               ProjectCreate pd "p3" 4 4 ] in
  forallb (fun o => negb (sets_slug o)) ops = true
  /\ exists db, run ops Db.empty = Some db /\ slugs_unique db.
Proof.
  intros pd ops. split; [reflexivity|].
  apply (slug_unique_without_slug_updates ops). reflexivity.
Defined.

(** ** Cascade delete *)

Section Cascade.
Variable A : Type.
Variable project_id : A -> string.
Variable id : string.

Lemma obj_get_app_fresh (k : string) (o1 o2 : obj A) :
  ~ In k (obj_keys o1) -> obj_get k (o1 ++ o2)%list = obj_get k o2.
Proof.
  induction o1 as [|[k' v'] o1 IH]; simpl; intros Hk; [reflexivity|].
  destruct (String.eqb k k') eqn:E.
  - apply String.eqb_eq in E. subst. tauto.
  - apply IH. tauto.
Qed.

Lemma obj_delete_fresh (k : string) (o : obj A) :
  ~ In k (obj_keys o) -> obj_delete k o = o.
Proof.
  unfold obj_delete. induction o as [|[k' v'] o IH]; simpl; intros Hk;
    [reflexivity|].
  destruct (String.eqb k k') eqn:E; simpl.
  - apply String.eqb_eq in E. subst. tauto.
  - rewrite IH; tauto.
Qed.

(** The loop over the key snapshot, with [done] already visited. *)
Lemma cascade_step (rest : obj A) :
  forall done : obj A,
    obj_wf (done ++ rest)%list ->
    fold_left
      (fun cur k =>
         match obj_get k cur with
         | Some r => if String.eqb (project_id r) id then obj_delete k cur
                     else cur
         | None => cur
         end)
      (obj_keys rest) (done ++ rest)%list
    = (done ++ filter (kept project_id id) rest)%list.
Proof.
  induction rest as [|[k v] rest IH]; intros done Hwf; simpl; [reflexivity|].
  unfold obj_wf, obj_keys in Hwf. rewrite map_app in Hwf. simpl in Hwf.
  assert (Hdone : ~ In k (obj_keys done)).
  { intros H. apply NoDup_remove_2 in Hwf. apply Hwf.
    apply in_or_app. now left. }
  assert (Hrest : ~ In k (obj_keys rest)).
  { intros H. apply NoDup_remove_2 in Hwf. apply Hwf.
    apply in_or_app. now right. }
  rewrite obj_get_app_fresh by exact Hdone. simpl. rewrite String.eqb_refl.
  unfold kept at 1. simpl.
  destruct (String.eqb (project_id v) id) eqn:E; simpl.
  - assert (Hdel : obj_delete k (done ++ (k, v) :: rest)%list
                   = (done ++ rest)%list).
    { unfold obj_delete. rewrite filter_app. simpl.
      rewrite String.eqb_refl. simpl.
      fold (obj_delete k done). fold (obj_delete k rest).
      now rewrite !obj_delete_fresh. }
    rewrite Hdel. apply IH.
    unfold obj_wf, obj_keys. rewrite map_app.
    now apply NoDup_remove_1 in Hwf.
  - replace (done ++ (k, v) :: rest)%list
      with ((done ++ [(k, v)]) ++ rest)%list
      by (now rewrite <- app_assoc).
    rewrite IH.
    + now rewrite <- app_assoc.
    + unfold obj_wf, obj_keys. rewrite <- app_assoc, map_app. exact Hwf.
Qed.

Lemma cascade_filter (o : obj A) :
  obj_wf o -> cascade project_id id o = filter (kept project_id id) o.
Proof.
  intros Hwf. unfold cascade. apply (cascade_step o []). exact Hwf.
Qed.
End Cascade.

(** C2: [projects.delete(id)] removes the Project stored under [id] and
    exactly the Collaborations, Updates and Comments whose [project_id] is
    [id]; every other record of every collection, and every Agent, stays
    as it was, in place. *)
Theorem projects_delete_cascade (id : string) (db : Db.t) :
  db_wf db ->
  Db.agents (projects.delete id db) = Db.agents db
  /\ Db.projects (projects.delete id db)
     = filter (fun kv => negb (String.eqb id (fst kv))) (Db.projects db)
  /\ Db.collaborations (projects.delete id db)
     = filter (kept Collaboration.project_id id) (Db.collaborations db)
  /\ Db.updates (projects.delete id db)
     = filter (kept Update.project_id id) (Db.updates db)
  /\ Db.comments (projects.delete id db)
     = filter (kept Comment.project_id id) (Db.comments db).
Proof.
  intros [_ [_ [Hc [Hu Hm]]]]. simpl.
  repeat split; try reflexivity; now apply cascade_filter.
Qed.

(** ** The slug rule *)

Lemma lower_char_alnum (c : ascii) :
  SlugSpec.is_alnum (lower_char c) = is_slug_char (lower_char c).
Proof. destruct c as [[] [] [] [] [] [] [] []]; reflexivity. Qed.

Lemma runs_nil (l : list ascii) : SlugSpec.runs l = [] -> l = [].
Proof.
  destruct l as [|c l]; simpl; [reflexivity|].
  destruct (SlugSpec.runs l) as [|[b r] rest]; [discriminate|].
  destruct (Bool.eqb b (SlugSpec.is_alnum c)); discriminate.
Qed.

Lemma runs_head (d : ascii) (l : list ascii) :
  exists r rest, SlugSpec.runs (d :: l) = (SlugSpec.is_alnum d, r) :: rest.
Proof.
  simpl. destruct (SlugSpec.runs l) as [|[b r] rest]; [eauto|].
  destruct (Bool.eqb b (SlugSpec.is_alnum d)) eqn:E; [|eauto].
  apply Bool.eqb_prop in E. subst. eauto.
Qed.

(** One step of the collapse: a character outside the class yields the
    hyphen of its run only when it is the last of the run. *)
Lemma collapse_cons (c : ascii) (l : list ascii) :
  SlugSpec.collapse (c :: l)
  = if SlugSpec.is_alnum c then c :: SlugSpec.collapse l
    else match l with
         | d :: _ => if SlugSpec.is_alnum d then hyphen :: SlugSpec.collapse l
                     else SlugSpec.collapse l
         | [] => [hyphen]
         end.
Proof.
  unfold SlugSpec.collapse.
  destruct l as [|d l].
  - simpl. destruct (SlugSpec.is_alnum c); reflexivity.
  - destruct (runs_head d l) as [r [rest Hr]].
    change (SlugSpec.runs (c :: d :: l))
      with (match SlugSpec.runs (d :: l) with
            | (b, r) :: rest =>
                if Bool.eqb b (SlugSpec.is_alnum c) then (b, c :: r) :: rest
                else (SlugSpec.is_alnum c, [c]) :: (b, r) :: rest
            | [] => [(SlugSpec.is_alnum c, [c])]
            end).
    rewrite Hr.
    destruct (SlugSpec.is_alnum c), (SlugSpec.is_alnum d); reflexivity.
Qed.

Lemma replace_runs_true (l : list ascii) :
  hyphen :: replace_runs true l
  = match l with
    | d :: _ => if is_slug_char d then hyphen :: replace_runs false l
                else replace_runs false l
    | [] => [hyphen]
    end.
Proof. destruct l as [|d l]; simpl; [|destruct (is_slug_char d)]; reflexivity. Qed.

Lemma replace_runs_collapse (l : list ascii) :
  Forall (fun c => SlugSpec.is_alnum c = is_slug_char c) l ->
  replace_runs false l = SlugSpec.collapse l.
Proof.
  induction 1 as [|c l Hc Hl IH]; [reflexivity|].
  rewrite collapse_cons. simpl. rewrite Hc.
  destruct (is_slug_char c); [now rewrite IH|].
  rewrite replace_runs_true.
  destruct Hl as [|d l Hd Hl]; [reflexivity|].
  rewrite Hd, IH. reflexivity.
Qed.

Lemma replace_runs_true_head (l : list ascii) :
  forall l', replace_runs true l <> hyphen :: l'.
Proof.
  induction l as [|c l IH]; simpl; intros l'; [discriminate|].
  destruct (is_slug_char c) eqn:E; [|apply IH].
  intros H. injection H as -> _. discriminate E.
Qed.

Lemma pair_free_cons (c : ascii) (l : list ascii) :
  pair_free l -> (c <> hyphen \/ forall l', l <> hyphen :: l') ->
  pair_free (c :: l).
Proof.
  intros Hl Hc [|a l1] l2; simpl; intros H; injection H as -> H.
  - destruct Hc as [Hc|Hc]; [now apply Hc|exact (Hc _ H)].
  - exact (Hl _ _ H).
Qed.

Lemma replace_runs_pair_free (l : list ascii) :
  forall b, pair_free (replace_runs b l).
Proof.
  induction l as [|c l IH]; intros b; simpl.
  - intros [|a l1] l2; discriminate.
  - destruct (is_slug_char c) eqn:E.
    + apply pair_free_cons; [apply IH|]. left. intros ->. discriminate E.
    + destruct b; [apply IH|].
      apply pair_free_cons; [apply IH|]. right. apply replace_runs_true_head.
Qed.

Lemma pair_free_rev (l : list ascii) : pair_free l -> pair_free (rev l).
Proof.
  intros H l1 l2 E. apply (H (rev l2) (rev l1)).
  rewrite <- (rev_involutive l), E, rev_app_distr. simpl.
  now rewrite <- !app_assoc.
Qed.

Lemma strip_leading_drop (l : list ascii) :
  pair_free l ->
  strip_leading l = SlugSpec.drop_hyphens l /\ pair_free (strip_leading l).
Proof.
  intros H. destruct l as [|c l]; simpl; [easy|].
  destruct (Ascii.eqb c hyphen) eqn:E; [|easy].
  apply Ascii.eqb_eq in E. subst c. split.
  - destruct l as [|d l]; simpl; [reflexivity|].
    destruct (Ascii.eqb d hyphen) eqn:E'; [|reflexivity].
    apply Ascii.eqb_eq in E'. subst d. exfalso. now apply (H [] l).
  - intros l1 l2 E. now apply (H (hyphen :: l1) l2); rewrite E.
Qed.

Lemma replace_edges_trim (l : list ascii) :
  pair_free l -> replace_edges l = SlugSpec.trim l.
Proof.
  intros H. unfold replace_edges, strip_trailing, SlugSpec.trim.
  destruct (strip_leading_drop l H) as [E1 H1]. rewrite <- E1.
  apply pair_free_rev in H1.
  destruct (strip_leading_drop _ H1) as [E2 _]. now rewrite E2.
Qed.

Lemma slugify_base_slug (title : string) :
  slugify title = SlugSpec.base_slug title.
Proof.
  unfold slugify, SlugSpec.base_slug.
  rewrite replace_edges_trim by apply replace_runs_pair_free.
  rewrite replace_runs_collapse; [reflexivity|].
  apply Forall_forall. intros c Hc.
  apply in_map_iff in Hc as [c0 [<- _]]. apply lower_char_alnum.
Qed.

(** C3: [projects.create] returns, and the slug of the created Project is
    the first free candidate for the base slug the rule of the
    specification derives from the title: the base slug when no Project
    holds it, else the first of [-1], [-2], ... that is free. *)
Theorem projects_create_slug (data : ProjectData.t) (id : string)
    (now now' : Z) (db : Db.t) :
  exists db' p,
    projects.create data id now now' db = Some (db', p)
    /\ slugify (ProjectData.title data)
       = SlugSpec.base_slug (ProjectData.title data)
    /\ SlugSpec.first_free db (SlugSpec.base_slug (ProjectData.title data))
         (Project.slug p).
Proof.
  destruct (projects_create_total data id now now' db) as [db' [p H]].
  exists db', p. split; [exact H|]. split; [apply slugify_base_slug|].
  rewrite <- slugify_base_slug. unfold projects.create in H.
  destruct (uniqueSlug db (slugify (ProjectData.title data))) as [s|] eqn:E;
    [|discriminate].
  injection H as _ <-. simpl. now apply uniqueSlug_first_free.
Qed.

(** ** Sorting *)

Section Sorting.
Variable A : Type.
Variable cmp : A -> A -> Z.
Variable le : A -> A -> Prop.
Hypothesis cmp_le : forall x y, (cmp x y <= 0)%Z -> le x y.
Hypothesis cmp_gt : forall x y, (cmp x y > 0)%Z -> le y x.
Hypothesis le_trans : forall x y z, le x y -> le y z -> le x z.

Lemma insert_by_perm (x : A) (l : list A) :
  Permutation (insert_by cmp x l) (x :: l).
Proof.
  induction l as [|y l IH]; simpl; [reflexivity|].
  destruct (cmp x y <=? 0)%Z; [reflexivity|].
  rewrite IH. apply perm_swap.
Qed.

Lemma sort_by_perm (l : list A) : Permutation (sort_by cmp l) l.
Proof.
  induction l as [|x l IH]; simpl; [reflexivity|].
  rewrite insert_by_perm. now constructor.
Qed.

Lemma insert_by_sorted (x : A) (l : list A) :
  StronglySorted le l -> StronglySorted le (insert_by cmp x l).
Proof.
  induction 1 as [|y l Hs IH Hy]; simpl.
  - repeat constructor.
  - destruct (cmp x y <=? 0)%Z eqn:E.
    + apply Z.leb_le in E. apply cmp_le in E.
      constructor; [now constructor|].
      constructor; [exact E|].
      eapply Forall_impl; [|exact Hy]. intros z Hz. eapply le_trans; eauto.
    + apply Z.leb_gt in E. constructor; [exact IH|].
      apply (Permutation_Forall (Permutation_sym (insert_by_perm x l))).
      constructor; [|exact Hy]. apply cmp_gt. lia.
Qed.

Lemma sort_by_sorted (l : list A) : StronglySorted le (sort_by cmp l).
Proof.
  induction l as [|x l IH]; simpl; [constructor|].
  now apply insert_by_sorted.
Qed.
End Sorting.

(** ** Listing projects *)

Lemma of_chars_app (a b : list ascii) :
  of_chars (a ++ b)%list = of_chars a ++ of_chars b.
Proof. induction a as [|c a IH]; simpl; [reflexivity|]. now rewrite IH. Qed.

Lemma split_chars_cons (cur l : list ascii) :
  exists x rest, split_chars cur l = x :: rest.
Proof.
  revert cur. induction l as [|c l IH]; intros cur; simpl; [eauto|].
  destruct (Ascii.eqb c ","%char); [eauto|apply IH].
Qed.

(** [split_comma] cuts at the commas and nowhere else: joining the pieces
    with commas gives the string back. *)
Lemma split_chars_join (l : list ascii) :
  forall cur,
    String.concat "," (map of_chars (split_chars cur l))
    = of_chars (rev cur ++ l)%list.
Proof.
  induction l as [|c l IH]; intros cur; simpl.
  - now rewrite app_nil_r.
  - destruct (Ascii.eqb c ","%char) eqn:E.
    + apply Ascii.eqb_eq in E. subst c.
      specialize (IH []). simpl in IH.
      destruct (split_chars_cons [] l) as [x [rest Hx]].
      rewrite Hx in *. simpl in *. rewrite IH.
      now rewrite of_chars_app.
    + rewrite IH. simpl. now rewrite <- app_assoc.
Qed.

Lemma split_comma_join (s : string) : String.concat "," (split_comma s) = s.
Proof.
  unfold split_comma. rewrite split_chars_join. simpl. apply of_chars_chars.
Qed.

Lemma projects_newest_first_sorted (l : list Project.t) :
  StronglySorted
    (fun a b => (Project.created_at b <= Project.created_at a)%Z)
    (sort_by projects.newest_first l).
Proof.
  apply sort_by_sorted; unfold projects.newest_first; intros; lia.
Qed.

(** Without category, skill and limit, [findAll] is the stable sort of
    the status filter. *)
Lemma projects_findAll_status_only (exponent_head : Z -> Z)
    (st : option string) (db : Db.t) :
  projects.findAll exponent_head (Filters.mk None st None None) db
  = sort_by projects.newest_first
      (filter
         (fun p =>
            includes
              match truthy_str st with
              | Some s => split_comma s
              | None => projects.default_statuses
              end (Project.status p))
         (obj_values (Db.projects db))).
Proof.
  unfold projects.findAll. simpl. destruct (truthy_str st); reflexivity.
Qed.

(** C4, as stated, fails at the empty filter string: [if (filters.status)]
    takes it for an absent filter, and a "seeking" Project is listed
    although "seeking" is not in the set the empty string splits into. *)
Lemma findAll_status_counterexample :
  ~ (exists exponent_head,
       forall s db,
         Permutation
           (projects.findAll exponent_head
              (Filters.mk None (Some s) None None) db)
           (filter (fun p => includes (split_comma s) (Project.status p))
                   (obj_values (Db.projects db)))).
Proof.
  intros [exponent_head H].
  specialize
    (H ""
       (Db.mk []
          [("p1", Project.mk "p1" "a" "A" None "other" "seeking" [] None
                    "ada" 1 1)]
          [] [] [])).
  vm_compute in H. apply Permutation_sym, Permutation_nil in H. discriminate H.
Qed.

(** C4, amended: with no status filter [findAll] returns exactly the
    Projects whose status is "seeking" or "in-progress"; with a non-empty
    status filter string it returns exactly the Projects whose status is
    in the comma-separated set of that string; both times sorted by
    creation time, newest first. *)
Theorem projects_findAll_status (exponent_head : Z -> Z) (db : Db.t) :
  (Permutation
     (projects.findAll exponent_head Filters.none db)
     (filter (fun p => includes ["seeking"; "in-progress"] (Project.status p))
             (obj_values (Db.projects db)))
   /\ StronglySorted
        (fun a b => (Project.created_at b <= Project.created_at a)%Z)
        (projects.findAll exponent_head Filters.none db))
  /\ forall s,
       s <> "" ->
       Permutation
         (projects.findAll exponent_head (Filters.mk None (Some s) None None) db)
         (filter (fun p => includes (split_comma s) (Project.status p))
                 (obj_values (Db.projects db)))
       /\ StronglySorted
            (fun a b => (Project.created_at b <= Project.created_at a)%Z)
            (projects.findAll exponent_head (Filters.mk None (Some s) None None) db).
Proof.
  split.
  - unfold Filters.none. rewrite projects_findAll_status_only. simpl.
    split; [apply sort_by_perm|apply projects_newest_first_sorted].
  - intros s Hs. rewrite projects_findAll_status_only.
    assert (E : truthy_str (Some s) = Some s).
    { simpl. destruct (String.eqb s "") eqn:E; [|reflexivity].
      apply String.eqb_eq in E. contradiction. }
    rewrite E. split; [apply sort_by_perm|apply projects_newest_first_sorted].
Qed.

(** C5, as stated, fails at the limit 0: [if (filters.limit)] takes it
    for an absent limit and every match is returned, whatever the
    built-in does. *)
Lemma findAll_limit_counterexample :
  ~ (exists exponent_head,
       forall (n : nat) f db,
         projects.findAll exponent_head
           (Filters.with_limit (Some (Z.of_nat n)) f) db
         = firstn n
             (projects.findAll exponent_head (Filters.with_limit None f) db)).
Proof.
  intros [exponent_head H].
  specialize
    (H 0%nat Filters.none
       (Db.mk []
          [("p1", Project.mk "p1" "a" "A" None "other" "seeking" [] None
                    "ada" 1 1)]
          [] [] [])).
  vm_compute in H. discriminate H.
Qed.

(** From 10^21 on the limit is no longer the number of elements kept:
    [parseInt(1e21)] reads the ["1"] of ["1e+21"], and one Project is
    returned where two match. *)
Example findAll_limit_exponent :
  let p := fun id t =>
             Project.mk id id "T" None "other" "seeking" [] None "ada" t t in
  let db := Db.mk [] [("p1", p "p1" 1%Z); ("p2", p "p2" 2%Z)] [] [] [] in
  projects.findAll (fun _ => 1%Z)
    (Filters.with_limit (Some (10 ^ 21)%Z) Filters.none) db
  = [p "p2" 2%Z].
Proof. reflexivity. Qed.

(** C5, amended: for every positive limit [n] below 10^21 in the
    filters, [findAll] returns the first [n] elements of the filtered,
    sorted sequence, and all of it when [n] is at least its length. *)
Theorem projects_findAll_limit (exponent_head : Z -> Z) (n : nat)
    (f : Filters.t) (db : Db.t) :
  (0 < n)%nat ->
  (Z.of_nat n < 10 ^ 21)%Z ->
  projects.findAll exponent_head (Filters.with_limit (Some (Z.of_nat n)) f) db
  = firstn n (projects.findAll exponent_head (Filters.with_limit None f) db)
  /\ ((List.length
         (projects.findAll exponent_head (Filters.with_limit None f) db)
       <= n)%nat ->
      projects.findAll exponent_head
        (Filters.with_limit (Some (Z.of_nat n)) f) db
      = projects.findAll exponent_head (Filters.with_limit None f) db).
Proof.
  intros Hn Hsmall.
  assert (E : projects.findAll exponent_head
                (Filters.with_limit (Some (Z.of_nat n)) f) db
              = firstn n
                  (projects.findAll exponent_head
                     (Filters.with_limit None f) db)).
  { unfold projects.findAll, Filters.with_limit.
    cbn [Filters.category Filters.status Filters.skill Filters.limit
         truthy_num].
    destruct (Z.of_nat n =? 0)%Z eqn:E0; [apply Z.eqb_eq in E0; lia|].
    unfold parseInt_number.
    destruct (Z.abs (Z.of_nat n) <? 10 ^ 21)%Z eqn:E2;
      [|apply Z.ltb_ge in E2; lia].
    unfold slice0.
    destruct (Z.of_nat n <? 0)%Z eqn:E1; [apply Z.ltb_lt in E1; lia|].
    now rewrite Nat2Z.id. }
  split; [exact E|].
  intros Hlen. rewrite E. now apply firstn_all2.
Qed.

(** ** Build logs and discussion threads *)

(** C7: [updates.findByProject] returns exactly the Updates of the
    project, newest first; [comments.findByProject] returns exactly the
    Comments of the project, oldest first. *)
Theorem findByProject_order (projectId : string) (db : Db.t) :
  (Permutation
     (updates.findByProject projectId db)
     (filter (fun u => String.eqb (Update.project_id u) projectId)
             (obj_values (Db.updates db)))
   /\ StronglySorted
        (fun a b => (Update.created_at b <= Update.created_at a)%Z)
        (updates.findByProject projectId db))
  /\ (Permutation
        (comments.findByProject projectId db)
        (filter (fun c => String.eqb (Comment.project_id c) projectId)
                (obj_values (Db.comments db)))
      /\ StronglySorted
           (fun a b => (Comment.created_at a <= Comment.created_at b)%Z)
           (comments.findByProject projectId db)).
Proof.
  unfold updates.findByProject, comments.findByProject.
  repeat split; try apply sort_by_perm.
  - apply sort_by_sorted; unfold updates.newest_first; intros; lia.
  - apply sort_by_sorted; unfold comments.oldest_first; intros; lia.
Qed.

(** ** Agent names *)

Lemma obj_length_set_fresh (A : Type) (k : string) (v : A) (o : obj A) :
  obj_get k o = None -> List.length (obj_set k v o) = S (List.length o).
Proof.
  intros H. rewrite obj_set_fresh by exact H.
  rewrite length_app. simpl. lia.
Qed.

(** C8: [nameExists] holds exactly when an existing Agent has the name up
    to case; [create] does not look at names: called with a fresh
    identifier and a name that an existing Agent has up to case, it
    returns the new Agent and the collection holds both records. *)
Theorem agents_nameExists_create (db : Db.t) :
  (forall name,
     agents.nameExists name db = true
     <-> exists a, In a (obj_values (Db.agents db))
                   /\ toLowerCase (Agent.name a) = toLowerCase name)
  /\ forall data id apiKey now now' k a,
       obj_get k (Db.agents db) = Some a ->
       toLowerCase (Agent.name a) = toLowerCase (AgentData.name data) ->
       obj_get id (Db.agents db) = None ->
       agents.nameExists (AgentData.name data) db = true
       /\ Agent.name (snd (agents.create data id apiKey now now' db))
          = AgentData.name data
       /\ obj_get k (Db.agents (fst (agents.create data id apiKey now now' db)))
          = Some a
       /\ obj_get id (Db.agents (fst (agents.create data id apiKey now now' db)))
          = Some (snd (agents.create data id apiKey now now' db))
       /\ List.length (Db.agents (fst (agents.create data id apiKey now now' db)))
          = S (List.length (Db.agents db)).
Proof.
  assert (Hex : forall name,
             agents.nameExists name db = true
             <-> exists a, In a (obj_values (Db.agents db))
                           /\ toLowerCase (Agent.name a) = toLowerCase name).
  { intros name. unfold agents.nameExists. rewrite existsb_exists.
    split; intros [a [H1 H2]]; exists a; split; auto;
      now apply String.eqb_eq. }
  split; [exact Hex|].
  intros data id apiKey now now' k a Hk Hname Hid. simpl.
  repeat split.
  - apply Hex. exists a. split; [|exact Hname].
    apply obj_get_In in Hk. apply (in_map snd) in Hk. exact Hk.
  - rewrite obj_get_set_other; [exact Hk|]. intros ->. congruence.
  - apply obj_get_set_same.
  - now apply obj_length_set_fresh.
Qed.

Lemma agents_nameExists_create_witness :
  let ada := Agent.mk "u1" "Ada" "Ada L." None None None [] "th_1" 1 1 in
  let db := Db.mk [("u1", ada)] [] [] [] [] in
  let data := AgentData.mk "ada" "ada two" None None None None in
  obj_get "u1" (Db.agents db) = Some ada
  /\ toLowerCase (Agent.name ada) = toLowerCase (AgentData.name data)
  /\ obj_get "u2" (Db.agents db) = None
  /\ List.length (Db.agents (fst (agents.create data "u2" "th_2" 2 2 db)))
     = 2%nat.
Proof.
  intros ada db data.
  split; [reflexivity|]. split; [reflexivity|]. split; [reflexivity|].
  apply (proj2 (agents_nameExists_create db) data "u2" "th_2" 2%Z 2%Z "u1" ada);
    reflexivity.
Defined.

(** ** Defaults of [projects.create] *)

(** C10: when the category is absent or empty, the created Project has the
    category "other". *)
Theorem projects_create_default_category (data : ProjectData.t)
    (id : string) (now now' : Z) (db : Db.t) :
  ProjectData.category data = None \/ ProjectData.category data = Some "" ->
  exists db' p,
    projects.create data id now now' db = Some (db', p)
    /\ Project.category p = "other".
Proof.
  intros Hc. destruct (projects_create_total data id now now' db) as [db' [p H]].
  exists db', p. split; [exact H|].
  unfold projects.create in H.
  destruct (uniqueSlug db (slugify (ProjectData.title data))); [|discriminate].
  injection H as _ <-. simpl. destruct Hc as [-> | ->]; reflexivity.
Qed.

Lemma projects_create_default_category_witness :
  let data := ProjectData.mk "Self-Balancing Robot" None (Some "") None None
                "ada" in
  (ProjectData.category data = None \/ ProjectData.category data = Some "")
  /\ exists db' p,
       projects.create data "p1" 1 1 Db.empty = Some (db', p)
       /\ Project.category p = "other".
Proof.
  intros data. split; [right; reflexivity|].
  apply (projects_create_default_category data "p1" 1 1 Db.empty).
  right. reflexivity.
Defined.

(** ** Titles without alphanumeric characters *)

Lemma lower_char_blank (c : ascii) :
  SlugSpec.is_alnum c = false -> is_slug_char (lower_char c) = false.
Proof.
  destruct c as [[] [] [] [] [] [] [] []]; vm_compute; intros H;
    first [reflexivity | discriminate H].
Qed.

Lemma replace_runs_blank (l : list ascii) :
  Forall (fun c => is_slug_char c = false) l ->
  replace_runs true l = []
  /\ (replace_runs false l = [] \/ replace_runs false l = [hyphen]).
Proof.
  induction 1 as [|c l Hc Hl [IH1 IH2]]; simpl; [auto|].
  rewrite Hc, IH1. auto.
Qed.

Lemma slugify_blank (title : string) :
  no_alnum title = true -> slugify title = "".
Proof.
  unfold no_alnum, slugify. intros H.
  assert (Hl : Forall (fun c => is_slug_char c = false)
                 (map lower_char (chars title))).
  { apply Forall_forall. intros c Hc. apply in_map_iff in Hc as [c0 [<- Hc0]].
    apply lower_char_blank. rewrite forallb_forall in H.
    apply H in Hc0. now destruct (SlugSpec.is_alnum c0). }
  destruct (replace_runs_blank _ Hl) as [_ [-> | ->]]; reflexivity.
Qed.

(** Over the slugs [""], ["-1"], ..., the loop picks the next one. *)
Lemma uniqueSlug_next_blank (db : Db.t) (n : nat) (s : string) :
  slugs db = map (SlugSpec.candidate "") (seq 0 n) ->
  uniqueSlug db "" = Some s -> s = SlugSpec.candidate "" n.
Proof.
  intros Hs H. apply uniqueSlug_first_free in H as [k [-> [Hfree Hbelow]]].
  rewrite Hs in Hfree, Hbelow. f_equal.
  destruct (Nat.lt_trichotomy k n) as [Hlt|[->|Hgt]]; [|reflexivity|].
  - exfalso. apply Hfree. apply in_map. apply in_seq. lia.
  - exfalso. apply Hbelow in Hgt. apply in_map_iff in Hgt as [j [Hj Hin]].
    apply candidate_inj in Hj. apply in_seq in Hin. lia.
Qed.

Lemma run_blank_creates (ops : list op) :
  forall db n,
    forallb blank_create ops = true ->
    NoDup (map created_id ops) ->
    (forall o, In o ops -> obj_get (created_id o) (Db.projects db) = None) ->
    slugs db = map (SlugSpec.candidate "") (seq 0 n) ->
    exists db',
      run ops db = Some db'
      /\ slugs db' = map (SlugSpec.candidate "") (seq 0 (n + List.length ops)).
Proof.
  induction ops as [|o ops IH]; intros db n Hb Hnd Hfresh Hs; simpl.
  - exists db. now rewrite Nat.add_0_r.
  - simpl in Hb. apply andb_prop in Hb as [Ho Hb].
    destruct o; try discriminate Ho. simpl in Ho, Hnd |- *.
    unfold projects.create. rewrite (slugify_blank _ Ho).
    destruct (uniqueSlug_total db "") as [s Hu]. rewrite Hu. simpl.
    apply (uniqueSlug_next_blank db n s Hs) in Hu. subst s.
    assert (Hid : obj_get id (Db.projects db) = None).
    { apply (Hfresh (ProjectCreate data id now now')). now left. }
    inversion Hnd as [|? ? Hnot Hnd']; subst.
    rewrite <- Nat.add_succ_comm. apply IH; auto.
    + intros o Hin. simpl.
      rewrite obj_get_set_other; [apply Hfresh; now right|].
      intros E. apply Hnot. rewrite E. now apply in_map.
    + unfold slugs in *. unfold Db.with_projects. cbn [Db.projects].
      rewrite obj_set_fresh by exact Hid.
      unfold obj_values in *. rewrite !map_app, Hs, seq_S, map_app.
      reflexivity.
Qed.

(** C9: a title without alphanumeric characters has the empty base slug;
    Projects created one after the other from such titles, under fresh
    identifiers, get the slugs [""], ["-1"], ["-2"], ... in order. *)
Theorem blank_title_slugs :
  (forall title, no_alnum title = true -> slugify title = "")
  /\ forall ops,
       forallb blank_create ops = true ->
       NoDup (map created_id ops) ->
       exists db,
         run ops Db.empty = Some db
         /\ slugs db
            = map (fun k => match k with
                            | O => ""
                            | S _ => "-" ++ nat_to_string k
                            end)
                  (seq 0 (List.length ops)).
Proof.
  split; [exact slugify_blank|].
  intros ops Hb Hnd.
  apply (run_blank_creates ops Db.empty 0 Hb Hnd); [|reflexivity].
  intros o _. reflexivity.
Qed.

Lemma blank_title_slugs_witness :
  let pd := fun t => ProjectData.mk t None None None None "ada" in
  let ops := [ ProjectCreate (pd "!!!") "p1" 1 1;
               ProjectCreate (pd "???") "p2" 2 2;
               ProjectCreate (pd " - ") "p3" 3 3 ] in
  no_alnum "!!!" = true
  /\ forallb blank_create ops = true
  /\ NoDup (map created_id ops)
  /\ slugify "!!!" = ""
  /\ exists db, run ops Db.empty = Some db /\ slugs db = [""; "-1"; "-2"].
Proof.
  intros pd ops.
  assert (Hnd : NoDup (map created_id ops)).
  { repeat constructor; simpl; intuition discriminate. }
  split; [reflexivity|]. split; [reflexivity|]. split; [exact Hnd|].
  split; [apply (proj1 blank_title_slugs "!!!"); reflexivity|].
  apply (proj2 blank_title_slugs ops); [reflexivity|exact Hnd].
Defined.

(** ** Persistence *)















(** The field itself: created infinite, reloaded [null]. *)
Example round_trip_infinity :
  let data := [ ("title", VStr "T");
                ("maxCollaborators", VNum (Infinity false));
                ("creatorId", VStr "a1") ] in
  exists d' project,
    Raw.projects.create data "p1" "2026-01-01T00:00:00.000Z"
      "2026-01-01T00:00:00.000Z" Raw.Db.empty = Some (d', project)
    /\ prop project "max_collaborators" = VNum (Infinity false)
    /\ member (Raw.reloaded "projects" "p1" d') "max_collaborators" = VNull.
Proof. do 2 eexists. repeat split. Qed.




(** ** Well-formed documents *)

Lemma cascade_wf (A : Type) (project_id : A -> string) (id : string)
    (o : obj A) :
  obj_wf o -> obj_wf (cascade project_id id o).
Proof.
  intros H. rewrite cascade_filter by exact H. now apply obj_wf_filter.
Qed.

Lemma exec_db_wf (o : op) (db db' : Db.t) :
  db_wf db -> exec o db = Some db' -> db_wf db'.
Proof.
  unfold db_wf. intros [Ha [Hp [Hc [Hu Hm]]]].
  destruct o; simpl; intros H.
  - injection H as <-. simpl. auto using obj_wf_set.
  - injection H as <-. unfold agents.update.
    destruct (obj_get id (Db.agents db)); simpl; auto using obj_wf_set.
  - destruct (projects.create data id now now' db) as [[d p]|] eqn:E;
      [|discriminate].
    injection H as <-. unfold projects.create in E.
    destruct (uniqueSlug db (slugify (ProjectData.title data)));
      [|discriminate].
    injection E as <- _. simpl. auto using obj_wf_set.
  - injection H as <-. unfold projects.update.
    destruct (obj_get id (Db.projects db)); simpl; auto using obj_wf_set.
  - injection H as <-. simpl. auto 6 using obj_wf_delete, cascade_wf.
  - injection H as <-. simpl. auto 6 using obj_wf_set.
  - injection H as <-. unfold collaborations.update.
    destruct (obj_get id (Db.collaborations db)); simpl;
      auto 6 using obj_wf_set.
  - injection H as <-. unfold collaborations.delete.
    destruct (collaborations.findByProjectAndAgent projectId agentId db);
      simpl; auto 6 using obj_wf_delete.
  - injection H as <-. simpl. auto 6 using obj_wf_set.
  - injection H as <-. simpl. auto 6 using obj_wf_set.
Qed.

(** Every reachable document is well formed. *)
Lemma reachable_db_wf (db : Db.t) : reachable db -> db_wf db.
Proof.
  intros [ops Hrun].
  assert (Hgen : forall d d', db_wf d -> run ops d = Some d' -> db_wf d').
  { clear. induction ops as [|o ops IH]; simpl; intros d d' Hd H.
    - now injection H as <-.
    - destruct (exec o d) as [d1|] eqn:E; [|discriminate].
      apply (IH d1 d'); [|exact H]. now apply (exec_db_wf o d d1). }
  apply (Hgen Db.empty db); [|exact Hrun].
  unfold db_wf, obj_wf. simpl. repeat split; constructor.
Qed.

(** ** Instances *)

Lemma projects_delete_cascade_witness :
  let c1 := Collaboration.mk "c1" "p1" "ada" "creator" None "accepted" 1 in
  let c2 := Collaboration.mk "c2" "p2" "ada" "creator" None "accepted" 2 in
  let u1 := Update.mk "n1" "p1" "ada" "first" 3 in
  let m1 := Comment.mk "m1" "p2" "bob" "nice" 4 in
  let p := fun id slug t =>
             Project.mk id slug "T" None "other" "seeking" [] None "ada" t t in
  let db := Db.mk []
              [("p1", p "p1" "t" 1%Z); ("p2", p "p2" "t-1" 2%Z)]
              [("c1", c1); ("c2", c2)] [("n1", u1)] [("m1", m1)] in
  db_wf db
  /\ Db.projects (projects.delete "p1" db) = [("p2", p "p2" "t-1" 2%Z)]
  /\ Db.collaborations (projects.delete "p1" db) = [("c2", c2)]
  /\ Db.updates (projects.delete "p1" db) = []
  /\ Db.comments (projects.delete "p1" db) = [("m1", m1)].
Proof.
  intros c1 c2 u1 m1 p db.
  assert (Hwf : db_wf db).
  { unfold db_wf, obj_wf. simpl.
    repeat split; repeat constructor; simpl; intuition discriminate. }
  split; [exact Hwf|].
  exact (proj2 (projects_delete_cascade "p1" db Hwf)).
Defined.

Lemma projects_findAll_status_witness :
  let p := fun id st t =>
             Project.mk id id "T" None "other" st [] None "ada" t t in
  let db := Db.mk []
              [("p1", p "p1" "completed" 1%Z); ("p2", p "p2" "seeking" 2%Z);
               ("p3", p "p3" "abandoned" 3%Z)]
              [] [] [] in
  "completed,abandoned" <> ""
  /\ projects.findAll (fun _ : Z => 1%Z) (Filters.mk None (Some "completed,abandoned") None None)
       db
     = [p "p3" "abandoned" 3%Z; p "p1" "completed" 1%Z]
  /\ StronglySorted
       (fun a b => (Project.created_at b <= Project.created_at a)%Z)
       (projects.findAll (fun _ : Z => 1%Z)
          (Filters.mk None (Some "completed,abandoned") None None) db).
Proof.
  intros p db.
  assert (Hs : "completed,abandoned" <> "") by discriminate.
  split; [exact Hs|]. split; [reflexivity|].
  exact (proj2 (proj2 (projects_findAll_status (fun _ : Z => 1%Z) db) _ Hs)).
Defined.

Lemma projects_findAll_limit_witness :
  let p := fun id t =>
             Project.mk id id "T" None "other" "seeking" [] None "ada" t t in
  let db := Db.mk [] [("p1", p "p1" 1%Z); ("p2", p "p2" 2%Z)] [] [] [] in
  (0 < 1)%nat
  /\ (Z.of_nat 1 < 10 ^ 21)%Z
  /\ projects.findAll (fun _ => 1%Z)
       (Filters.with_limit (Some 1%Z) Filters.none) db
     = [p "p2" 2%Z].
Proof.
  intros p db.
  assert (Hs : (Z.of_nat 1 < 10 ^ 21)%Z) by reflexivity.
  split; [lia|]. split; [exact Hs|].
  exact (proj1 (projects_findAll_limit (fun _ => 1%Z) 1 Filters.none db
                  Nat.lt_0_1 Hs)).
Defined.

(** * Further properties of the store *)

(** ** The shape of slugs *)

Lemma of_chars_length (l : list ascii) :
  String.length (of_chars l) = List.length l.
Proof. induction l as [|c l IH]; simpl; auto. Qed.

Lemma replace_runs_url_chars (l : list ascii) :
  forall b, Forall (fun c => is_url_char c = true) (replace_runs b l).
Proof.
  induction l as [|c l IH]; intros b; simpl; [constructor|].
  destruct (is_slug_char c) eqn:E.
  - constructor; [|apply IH]. unfold is_url_char. now rewrite E.
  - destruct b; [apply IH|]. constructor; [reflexivity|apply IH].
Qed.

Lemma strip_leading_cases (l : list ascii) :
  strip_leading l = l \/ l = hyphen :: strip_leading l.
Proof.
  destruct l as [|c l]; simpl; [now left|].
  destruct (Ascii.eqb c hyphen) eqn:E; [|now left].
  apply Ascii.eqb_eq in E. subst. now right.
Qed.

Lemma strip_trailing_cases (l : list ascii) :
  strip_trailing l = l \/ l = (strip_trailing l ++ [hyphen])%list.
Proof.
  unfold strip_trailing.
  destruct (strip_leading_cases (rev l)) as [H|H].
  - left. rewrite H. apply rev_involutive.
  - right. rewrite <- (rev_involutive l) at 1. rewrite H. reflexivity.
Qed.

Lemma replace_edges_Forall (P : ascii -> Prop) (l : list ascii) :
  Forall P l -> Forall P (replace_edges l).
Proof.
  intros H. unfold replace_edges.
  assert (H1 : Forall P (strip_leading l)).
  { destruct (strip_leading_cases l) as [E|E]; [now rewrite E|].
    rewrite E in H. now inversion H. }
  destruct (strip_trailing_cases (strip_leading l)) as [E|E];
    [now rewrite E|].
  rewrite E in H1. now apply Forall_app in H1 as [H1 _].
Qed.

Lemma pair_free_firstn (n : nat) (l : list ascii) :
  pair_free l -> pair_free (firstn n l).
Proof.
  intros H l1 l2 E. apply (H l1 (l2 ++ skipn n l)%list).
  rewrite <- (firstn_skipn n l) at 1. rewrite E, <- app_assoc. reflexivity.
Qed.

Lemma replace_edges_pair_free (l : list ascii) :
  pair_free l -> pair_free (replace_edges l).
Proof.
  intros H. unfold replace_edges, strip_trailing.
  apply pair_free_rev. apply strip_leading_drop. apply pair_free_rev.
  now apply strip_leading_drop.
Qed.

Lemma replace_edges_head (l : list ascii) :
  pair_free l -> forall l', replace_edges l <> hyphen :: l'.
Proof.
  intros H l' E. unfold replace_edges in E.
  assert (H1 : forall l0, strip_leading l <> hyphen :: l0).
  { intros l0 E0. destruct (strip_leading_cases l) as [E1|E1].
    - rewrite E1 in E0. subst l. simpl in E1.
      apply (H [] l0). simpl. f_equal. exact E1.
    - rewrite E0 in E1. now apply (H [] l0). }
  destruct (strip_trailing_cases (strip_leading l)) as [E1|E1].
  - rewrite E1 in E. exact (H1 _ E).
  - rewrite E in E1. simpl in E1. exact (H1 _ E1).
Qed.

Lemma In_firstn (A : Type) (n : nat) (l : list A) (x : A) :
  In x (firstn n l) -> In x l.
Proof.
  intros H. rewrite <- (firstn_skipn n l). apply in_or_app. now left.
Qed.

Lemma slugify_url_chars (text : string) :
  forallb is_url_char (chars (slugify text)) = true.
Proof.
  unfold slugify. rewrite chars_of_chars.
  apply forallb_forall. intros c Hc. apply In_firstn in Hc.
  assert (HF : Forall (fun c => is_url_char c = true)
                 (replace_edges
                    (replace_runs false (map lower_char (chars text))))).
  { apply replace_edges_Forall. apply replace_runs_url_chars. }
  rewrite Forall_forall in HF. now apply HF.
Qed.

(** X1: a slug base is at most 50 characters of [a-z0-9-], with no two
    hyphens side by side and no hyphen in front. *)
Theorem slugify_shape (text : string) :
  (String.length (slugify text) <= 50)%nat
  /\ forallb is_url_char (chars (slugify text)) = true
  /\ pair_free (chars (slugify text))
  /\ forall l, chars (slugify text) <> hyphen :: l.
Proof.
  split; [|split; [apply slugify_url_chars|]].
  { unfold slugify. rewrite of_chars_length. apply firstn_le_length. }
  unfold slugify. rewrite chars_of_chars.
  set (l := replace_runs false (map lower_char (chars text))).
  assert (Hp : pair_free l) by apply replace_runs_pair_free.
  split.
  - apply pair_free_firstn. now apply replace_edges_pair_free.
  - intros l' E. destruct (replace_edges l) as [|c r] eqn:Er; [discriminate E|].
    simpl in E. injection E as -> _.
    exact (replace_edges_head l Hp r Er).
Qed.

Lemma nat_to_string_digits (n : nat) :
  Forall (fun c => is_url_char c = true) (chars (nat_to_string n)).
Proof.
  unfold nat_to_string. generalize (Nat.to_uint n). intros d.
  induction d; simpl; constructor; auto.
Qed.

Lemma chars_app (a b : string) : chars (a ++ b) = (chars a ++ chars b)%list.
Proof. induction a as [|c a IH]; simpl; [reflexivity|]. now rewrite IH. Qed.

(** The number of the candidate [uniqueSlug] settles on is at most the
    number of projects. *)
Lemma first_free_bound (db : Db.t) (base : string) (k : nat) :
  (forall j, (j < k)%nat -> In (SlugSpec.candidate base j) (slugs db)) ->
  (k <= List.length (Db.projects db))%nat.
Proof.
  intros Hbelow.
  assert (Hincl : incl (map (SlugSpec.candidate base) (seq 0 k)) (slugs db)).
  { intros x Hx. apply in_map_iff in Hx as [j [<- Hj]].
    apply in_seq in Hj. apply Hbelow. lia. }
  assert (Hnd : NoDup (map (SlugSpec.candidate base) (seq 0 k))).
  { apply Injective_map_NoDup; [|apply seq_NoDup].
    intros i j. apply candidate_inj. }
  pose proof (NoDup_incl_length Hnd Hincl) as Hlen.
  now rewrite length_map, length_seq, slugs_length in Hlen.
Qed.

(** X2: [uniqueSlug] hands the base slug back when no Project holds it,
    and otherwise a numbered one whose number is at most the number of
    Projects. *)
Theorem uniqueSlug_suffix_bound (db : Db.t) (base : string) :
  exists k,
    (k <= List.length (Db.projects db))%nat
    /\ uniqueSlug db base
       = Some (match k with
               | O => base
               | S _ => base ++ "-" ++ nat_to_string k
               end)
    /\ (k = 0%nat <-> ~ In base (slugs db)).
Proof.
  destruct (uniqueSlug_total db base) as [s Hs].
  destruct (uniqueSlug_first_free db base s Hs) as [k [-> [Hfree Hbelow]]].
  exists k. split; [now apply (first_free_bound db base)|].
  split; [exact Hs|]. split.
  - intros ->. exact Hfree.
  - intros Hb. destruct k as [|k]; [reflexivity|].
    exfalso. apply Hb. apply (Hbelow 0%nat). lia.
Qed.

(** X3: the slug of a created Project is made of [a-z0-9-] only. *)
Theorem projects_create_slug_chars (data : ProjectData.t) (id : string)
    (now now' : Z) (db : Db.t) :
  exists db' p,
    projects.create data id now now' db = Some (db', p)
    /\ forallb is_url_char (chars (Project.slug p)) = true.
Proof.
  destruct (projects_create_total data id now now' db) as [db' [p H]].
  exists db', p. split; [exact H|].
  unfold projects.create in H.
  destruct (uniqueSlug db (slugify (ProjectData.title data))) as [s|] eqn:E;
    [|discriminate].
  injection H as _ <-. simpl.
  apply uniqueSlug_first_free in E as [k [-> _]].
  pose proof (slugify_url_chars (ProjectData.title data)) as Hb.
  destruct k as [|k]; [exact Hb|]. simpl.
  rewrite !chars_app, !forallb_app, Hb. simpl.
  apply forallb_forall. intros c Hc.
  pose proof (nat_to_string_digits (S k)) as Hd.
  rewrite Forall_forall in Hd. now apply Hd.
Qed.

(** ** Lookups *)

Section FindFacts.
Variable A : Type.
Variable test : A -> bool.

Lemma find_set_new (k : string) (v : A) (o : obj A) :
  (forall x, In x (obj_values o) -> test x = false) -> test v = true ->
  find test (obj_values (obj_set k v o)) = Some v.
Proof.
  intros Hall Hv. induction o as [|[k' v'] o IH]; simpl.
  - now rewrite Hv.
  - destruct (String.eqb k k'); simpl.
    + now rewrite Hv.
    + rewrite (Hall v') by now left. apply IH.
      intros x Hx. apply Hall. now right.
Qed.

Lemma find_existsb (l : list A) :
  existsb test l = true <-> exists x, find test l = Some x.
Proof.
  induction l as [|y l IH]; simpl.
  - split; [discriminate|intros [x H]; discriminate].
  - destruct (test y); simpl; [|exact IH].
    split; [eauto|reflexivity].
Qed.
End FindFacts.

Lemma find_unique (A B : Type) (f : A -> B) (eqb : B -> B -> bool)
    (Heqb : forall x y, eqb x y = true <-> x = y) (b : B) (l : list A)
    (x : A) :
  NoDup (map f l) -> In x l -> f x = b ->
  find (fun y => eqb (f y) b) l = Some x.
Proof.
  induction l as [|y l IH]; simpl; intros Hnd Hin Hb; [contradiction|].
  inversion Hnd as [|? ? Hnot Hnd']; subst.
  destruct (eqb (f y) (f x)) eqn:E.
  - apply Heqb in E. destruct Hin as [->|Hin]; [reflexivity|].
    exfalso. apply Hnot. rewrite E. now apply in_map.
  - destruct Hin as [->|Hin]; [|auto].
    assert (H : eqb (f x) (f x) = true) by now apply Heqb. congruence.
Qed.

(** X4: a Project just created is found under its slug and under its
    identifier, also when the identifier was in use. *)
Theorem projects_create_lookup (data : ProjectData.t) (id : string)
    (now now' : Z) (db : Db.t) :
  exists db' p,
    projects.create data id now now' db = Some (db', p)
    /\ projects.findBySlug (Project.slug p) db' = Some p
    /\ projects.findById id db' = Some p.
Proof.
  destruct (projects_create_total data id now now' db) as [db' [p H]].
  exists db', p. split; [exact H|].
  unfold projects.create in H.
  destruct (uniqueSlug db (slugify (ProjectData.title data))) as [s|] eqn:E;
    [|discriminate].
  injection H as <- <-. apply uniqueSlug_first_free in E as [k [_ [Hfree _]]].
  unfold projects.findBySlug, projects.findById. simpl. split.
  - apply find_set_new; [|apply String.eqb_refl].
    intros x Hx. apply String.eqb_neq. intros Hs. apply Hfree.
    rewrite <- Hs. unfold slugs. now apply in_map.
  - apply obj_get_set_same.
Qed.

(** X5: while slugs are unique, [findBySlug] finds a Project exactly
    when the store holds it under that slug. *)
Theorem projects_findBySlug_unique (slug : string) (p : Project.t)
    (db : Db.t) :
  slugs_unique db ->
  (projects.findBySlug slug db = Some p
   <-> In p (obj_values (Db.projects db)) /\ Project.slug p = slug).
Proof.
  intros Hnd. unfold projects.findBySlug. split.
  - intros H. apply find_some in H as [Hin Hs].
    split; [exact Hin|]. now apply String.eqb_eq.
  - intros [Hin Hs].
    apply (find_unique _ _ Project.slug String.eqb String.eqb_eq); auto.
Qed.

Lemma projects_findBySlug_unique_witness :
  let p := fun id slug =>
             Project.mk id slug "T" None "other" "seeking" [] None "ada" 1 1 in
  let db := Db.mk [] [("p1", p "p1" "t"); ("p2", p "p2" "t-1")] [] [] [] in
  slugs_unique db /\ projects.findBySlug "t-1" db = Some (p "p2" "t-1").
Proof.
  intros p db.
  assert (Hnd : slugs_unique db).
  { unfold slugs_unique; simpl.
    repeat constructor; simpl; intuition discriminate. }
  split; [exact Hnd|].
  apply (projects_findBySlug_unique "t-1" (p "p2" "t-1") db Hnd).
  split; [right; left; reflexivity|reflexivity].
Defined.

(** ** Updates touch one record *)

Lemma obj_keys_set_fresh (A : Type) (k : string) (v : A) (o : obj A) :
  obj_get k o = None -> obj_keys (obj_set k v o) = (obj_keys o ++ [k])%list.
Proof.
  intros H. rewrite obj_set_fresh by exact H.
  unfold obj_keys. now rewrite map_app.
Qed.

Lemma obj_keys_set_found (A : Type) (k : string) (v v0 : A) (o : obj A) :
  obj_get k o = Some v0 -> obj_keys (obj_set k v o) = obj_keys o.
Proof.
  intros H. apply obj_keys_set_present.
  apply obj_get_In in H. apply (in_map fst) in H. exact H.
Qed.

(** X6: at an identifier that is not a name of [Object.prototype], the
    three [update] operations never create and never remove a record,
    and leave every other record as it was; for an identifier the
    collection lacks they hand back the not-found value and the
    unchanged store. *)
Theorem update_touches_one_record (id : string) (db : Db.t) :
  inherited_key id = false ->
  (forall data now,
     (agents.findById id db = None -> agents.update id data now db = (db, None))
     /\ obj_keys (Db.agents (fst (agents.update id data now db)))
        = obj_keys (Db.agents db)
     /\ forall k, k <> id ->
          agents.findById k (fst (agents.update id data now db))
          = agents.findById k db)
  /\ (forall data now,
        (projects.findById id db = None ->
         projects.update id data now db = (db, None))
        /\ obj_keys (Db.projects (fst (projects.update id data now db)))
           = obj_keys (Db.projects db)
        /\ forall k, k <> id ->
             projects.findById k (fst (projects.update id data now db))
             = projects.findById k db)
  /\ (forall data,
        (obj_get id (Db.collaborations db) = None ->
         collaborations.update id data db = (db, None))
        /\ obj_keys (Db.collaborations (fst (collaborations.update id data db)))
           = obj_keys (Db.collaborations db)
        /\ forall k, k <> id ->
             obj_get k (Db.collaborations
                          (fst (collaborations.update id data db)))
             = obj_get k (Db.collaborations db)).
Proof.
  intros _. repeat split.
  - unfold agents.findById, agents.update. now intros ->.
  - unfold agents.update.
    destruct (obj_get id (Db.agents db)) eqn:E; simpl; [|reflexivity].
    now apply obj_keys_set_found with (v0 := t).
  - intros k Hk. unfold agents.findById, agents.update.
    destruct (obj_get id (Db.agents db)); simpl; [|reflexivity].
    apply obj_get_set_other. congruence.
  - unfold projects.findById, projects.update. now intros ->.
  - unfold projects.update.
    destruct (obj_get id (Db.projects db)) eqn:E; simpl; [|reflexivity].
    now apply obj_keys_set_found with (v0 := t).
  - intros k Hk. unfold projects.findById, projects.update.
    destruct (obj_get id (Db.projects db)); simpl; [|reflexivity].
    apply obj_get_set_other. congruence.
  - unfold collaborations.update. now intros ->.
  - unfold collaborations.update.
    destruct (obj_get id (Db.collaborations db)) eqn:E; simpl; [|reflexivity].
    now apply obj_keys_set_found with (v0 := t).
  - intros k Hk. unfold collaborations.update.
    destruct (obj_get id (Db.collaborations db)); simpl; [|reflexivity].
    apply obj_get_set_other. congruence.
Qed.

Lemma update_touches_one_record_witness :
  let p := fun id t =>
             Project.mk id id "T" None "other" "seeking" [] None "ada" t t in
  let db := Db.mk [] [("p1", p "p1" 1%Z); ("p2", p "p2" 2%Z)] [] [] [] in
  let retitle := ProjectPatch.mk None None (Some "New") None None None None
                   None None None in
  inherited_key "p1" = false
  /\ inherited_key "p9" = false
  /\ projects.findById "p9" db = None
  /\ projects.update "p9" retitle 5 db = (db, None)
  /\ option_map Project.title
       (projects.findById "p1" (fst (projects.update "p1" retitle 5 db)))
     = Some "New"
  /\ obj_keys (Db.projects (fst (projects.update "p1" retitle 5 db)))
     = ["p1"; "p2"]
  /\ "p2" <> "p1"
  /\ projects.findById "p2" (fst (projects.update "p1" retitle 5 db))
     = Some (p "p2" 2%Z).
Proof.
  intros p db retitle.
  assert (Hp1 : inherited_key "p1" = false) by reflexivity.
  assert (Hp9 : inherited_key "p9" = false) by reflexivity.
  assert (Hne : "p2" <> "p1") by discriminate.
  pose proof (proj1 (proj2 (update_touches_one_record "p9" db Hp9))
                retitle 5%Z) as [H9 _].
  pose proof (proj1 (proj2 (update_touches_one_record "p1" db Hp1))
                retitle 5%Z) as [_ [Hkeys Hother]].
  split; [exact Hp1|]. split; [exact Hp9|]. split; [reflexivity|].
  split; [apply H9; reflexivity|]. split; [reflexivity|].
  split; [exact Hkeys|]. split; [exact Hne|]. exact (Hother "p2" Hne).
Defined.

(** ** Deleting *)

Lemma obj_get_delete_same (A : Type) (k : string) (o : obj A) :
  obj_get k (obj_delete k o) = None.
Proof.
  unfold obj_delete. induction o as [|[k' v'] o IH]; simpl; [reflexivity|].
  destruct (String.eqb k k') eqn:E; simpl; [exact IH|]. now rewrite E.
Qed.

Lemma obj_delete_absent (A : Type) (k : string) (o : obj A) :
  ~ In k (obj_keys o) -> obj_delete k o = o.
Proof. exact (obj_delete_fresh A (fun _ => k) k o). Qed.

Lemma filter_idem (A : Type) (f : A -> bool) (l : list A) :
  filter f (filter f l) = filter f l.
Proof.
  induction l as [|x l IH]; simpl; [reflexivity|].
  destruct (f x) eqn:E; simpl; [rewrite E|]; now rewrite IH.
Qed.

Lemma filter_all (A : Type) (f : A -> bool) (l : list A) :
  (forall x, In x l -> f x = true) -> filter f l = l.
Proof.
  induction l as [|x l IH]; simpl; intros H; [reflexivity|].
  rewrite (H x) by now left. rewrite IH; auto.
Qed.

Lemma filter_nil (A : Type) (f : A -> bool) (l : list A) :
  filter f l = [] -> forall x, In x l -> f x = false.
Proof.
  induction l as [|y l IH]; simpl; intros H x Hx; [contradiction|].
  destruct (f y) eqn:E; [discriminate|].
  destruct Hx as [->|Hx]; auto.
Qed.

Lemma kept_none_left (A : Type) (project_id : A -> string) (id : string)
    (g : A -> bool) (o : obj A) :
  filter (fun r => String.eqb (project_id r) id && g r)
         (obj_values (filter (kept project_id id) o)) = [].
Proof.
  induction o as [|[k v] o IH]; simpl; [reflexivity|].
  unfold kept at 1. simpl.
  destruct (String.eqb (project_id v) id) eqn:E; simpl; [exact IH|].
  rewrite E. simpl. exact IH.
Qed.

Lemma kept_none_left' (A : Type) (project_id : A -> string) (id : string)
    (o : obj A) :
  filter (fun r => String.eqb (project_id r) id)
         (obj_values (filter (kept project_id id) o)) = [].
Proof.
  rewrite <- (kept_none_left A project_id id (fun _ => true) o).
  apply filter_ext. intros r. now rewrite andb_true_r.
Qed.

Lemma sort_by_nil (A : Type) (cmp : A -> A -> Z) (l : list A) :
  sort_by cmp l = [] -> l = [].
Proof.
  intros H. apply Permutation_nil. rewrite <- H. apply sort_by_perm.
Qed.

(** X7: after [projects.delete(id)], for an identifier that is not a
    name of [Object.prototype], nothing refers to [id] any more: the
    Project is not found, it has no Collaborations, Updates or Comments,
    its count of accepted members is 0; deleting it again changes
    nothing. *)
Theorem projects_delete_no_orphans (id : string) (db : Db.t) :
  inherited_key id = false ->
  db_wf db ->
  projects.findById id (projects.delete id db) = None
  /\ collaborations.findByProject id (projects.delete id db) = []
  /\ updates.findByProject id (projects.delete id db) = []
  /\ comments.findByProject id (projects.delete id db) = []
  /\ collaborations.countAccepted id (projects.delete id db) = 0%nat
  /\ projects.delete id (projects.delete id db) = projects.delete id db.
Proof.
  intros _ [_ [_ [Hc [Hu Hm]]]].
  unfold projects.findById, collaborations.findByProject,
    updates.findByProject, comments.findByProject,
    collaborations.countAccepted, projects.delete.
  cbn [Db.agents Db.projects Db.collaborations Db.updates Db.comments].
  rewrite !cascade_filter by assumption.
  repeat split.
  - apply obj_get_delete_same.
  - apply kept_none_left'.
  - now rewrite kept_none_left'.
  - now rewrite kept_none_left'.
  - now rewrite kept_none_left.
  - rewrite !cascade_filter by now apply obj_wf_filter.
    unfold obj_delete. now rewrite !filter_idem.
Qed.

Lemma projects_delete_no_orphans_witness :
  let c1 := Collaboration.mk "c1" "p1" "ada" "creator" None "accepted" 1 in
  let u1 := Update.mk "n1" "p1" "ada" "first" 3 in
  let p := Project.mk "p1" "t" "T" None "other" "seeking" [] None "ada" 1 1 in
  let db := Db.mk [] [("p1", p)] [("c1", c1)] [("n1", u1)] [] in
  inherited_key "p1" = false
  /\ db_wf db
  /\ collaborations.countAccepted "p1" db = 1%nat
  /\ collaborations.countAccepted "p1" (projects.delete "p1" db) = 0%nat.
Proof.
  intros c1 u1 p db.
  assert (Hwf : db_wf db).
  { unfold db_wf, obj_wf. simpl.
    repeat split; repeat constructor; simpl; intuition discriminate. }
  split; [reflexivity|]. split; [exact Hwf|]. split; [reflexivity|].
  exact (proj1 (proj2 (proj2 (proj2 (proj2
           (projects_delete_no_orphans "p1" db eq_refl Hwf)))))).
Defined.

(** X8: [projects.delete] of an identifier that no Project is stored
    under and no dependent record refers to leaves the store as it is. *)
Theorem projects_delete_unknown (id : string) (db : Db.t) :
  db_wf db ->
  projects.findById id db = None ->
  collaborations.findByProject id db = [] ->
  updates.findByProject id db = [] ->
  comments.findByProject id db = [] ->
  projects.delete id db = db.
Proof.
  intros [_ [_ [Hc [Hu Hm]]]] Hp Hcs Hus Hms.
  unfold projects.findById, collaborations.findByProject,
    updates.findByProject, comments.findByProject in *.
  apply sort_by_nil in Hus, Hms.
  unfold projects.delete. rewrite !cascade_filter by assumption.
  destruct db as [ags prs cos ups cms]. simpl in *. f_equal.
  - apply obj_delete_absent. exact (proj1 (obj_get_None _ id prs) Hp).
  - apply filter_all. intros [k c] Hin. unfold kept. simpl.
    rewrite (filter_nil _ _ _ Hcs c); [reflexivity|].
    apply (in_map snd) in Hin. exact Hin.
  - apply filter_all. intros [k c] Hin. unfold kept. simpl.
    rewrite (filter_nil _ _ _ Hus c); [reflexivity|].
    apply (in_map snd) in Hin. exact Hin.
  - apply filter_all. intros [k c] Hin. unfold kept. simpl.
    rewrite (filter_nil _ _ _ Hms c); [reflexivity|].
    apply (in_map snd) in Hin. exact Hin.
Qed.

Lemma projects_delete_unknown_witness :
  let c1 := Collaboration.mk "c1" "p1" "ada" "creator" None "accepted" 1 in
  let p := Project.mk "p1" "t" "T" None "other" "seeking" [] None "ada" 1 1 in
  let db := Db.mk [] [("p1", p)] [("c1", c1)] [] [] in
  db_wf db /\ projects.delete "p9" db = db.
Proof.
  intros c1 p db.
  assert (Hwf : db_wf db).
  { unfold db_wf, obj_wf. simpl.
    repeat split; repeat constructor; simpl; intuition discriminate. }
  split; [exact Hwf|].
  apply (projects_delete_unknown "p9" db Hwf); reflexivity.
Defined.

Lemma find_split (A : Type) (test : A -> bool) (o : obj A) (c : A) :
  find test (obj_values o) = Some c ->
  exists l1 k l2,
    o = (l1 ++ (k, c) :: l2)%list
    /\ forall kv, In kv l1 -> test (snd kv) = false.
Proof.
  induction o as [|[k v] o IH]; simpl; [discriminate|].
  destruct (test v) eqn:E.
  - intros [= ->]. exists [], k, o. split; [reflexivity|]. intros kv [].
  - intros H. destruct (IH H) as [l1 [k' [l2 [-> Hl1]]]].
    exists ((k, v) :: l1), k', l2. split; [reflexivity|].
    intros kv [<-|Hin]; [exact E|auto].
Qed.

Lemma obj_delete_middle (A : Type) (k : string) (v : A) (l1 l2 : obj A) :
  obj_wf (l1 ++ (k, v) :: l2)%list ->
  obj_delete k (l1 ++ (k, v) :: l2)%list = (l1 ++ l2)%list.
Proof.
  unfold obj_wf, obj_keys. rewrite map_app. simpl. intros Hwf.
  apply NoDup_remove_2 in Hwf.
  unfold obj_delete. rewrite filter_app. simpl.
  rewrite String.eqb_refl. simpl.
  fold (obj_delete k l1). fold (obj_delete k l2).
  rewrite !obj_delete_absent; [reflexivity| |];
    intros H; apply Hwf; apply in_or_app; auto.
Qed.

(** X9: [collaborations.delete] changes nothing when no Collaboration
    joins the agent to the project; otherwise, in a collection whose
    records sit under their own identifiers, it removes the first such
    Collaboration and no other record. *)
Theorem collaborations_delete_one (projectId agentId : string) (db : Db.t) :
  (collaborations.findByProjectAndAgent projectId agentId db = None ->
   collaborations.delete projectId agentId db = db)
  /\ forall c,
       obj_wf (Db.collaborations db) ->
       keyed Collaboration.id (Db.collaborations db) ->
       collaborations.findByProjectAndAgent projectId agentId db = Some c ->
       exists l1 l2,
         Db.collaborations db = (l1 ++ (Collaboration.id c, c) :: l2)%list
         /\ collaborations.delete projectId agentId db
            = Db.with_collaborations (l1 ++ l2)%list db
         /\ forall kv, In kv l1 ->
              String.eqb (Collaboration.project_id (snd kv)) projectId
              && String.eqb (Collaboration.agent_id (snd kv)) agentId = false.
Proof.
  split.
  - unfold collaborations.delete. now intros ->.
  - intros c Hwf Hk Hf. unfold collaborations.delete. rewrite Hf.
    unfold collaborations.findByProjectAndAgent in Hf.
    apply find_split in Hf as [l1 [k [l2 [E Hl1]]]].
    assert (Hid : Collaboration.id c = k).
    { unfold keyed in Hk. rewrite E in Hk. apply Forall_app in Hk as [_ Hk].
      now inversion Hk. }
    subst k. exists l1, l2. split; [exact E|]. split; [|exact Hl1].
    rewrite E in *. now rewrite obj_delete_middle.
Qed.

Lemma collaborations_delete_one_witness :
  let c1 := Collaboration.mk "c1" "p1" "ada" "creator" None "accepted" 1 in
  let c2 := Collaboration.mk "c2" "p1" "bob" "collaborator" None "pending" 2 in
  let db := Db.mk [] [] [("c1", c1); ("c2", c2)] [] [] in
  obj_wf (Db.collaborations db)
  /\ keyed Collaboration.id (Db.collaborations db)
  /\ collaborations.findByProjectAndAgent "p1" "bob" db = Some c2
  /\ exists l1 l2,
       Db.collaborations db = (l1 ++ (Collaboration.id c2, c2) :: l2)%list
       /\ collaborations.delete "p1" "bob" db
          = Db.with_collaborations (l1 ++ l2)%list db
       /\ forall kv, In kv l1 ->
            String.eqb (Collaboration.project_id (snd kv)) "p1"
            && String.eqb (Collaboration.agent_id (snd kv)) "bob" = false.
Proof.
  intros c1 c2 db.
  assert (Hwf : obj_wf (Db.collaborations db)).
  { unfold obj_wf. simpl. repeat constructor; simpl; intuition discriminate. }
  assert (Hk : keyed Collaboration.id (Db.collaborations db)).
  { unfold keyed. simpl. repeat constructor. }
  split; [exact Hwf|]. split; [exact Hk|]. split; [reflexivity|].
  apply (proj2 (collaborations_delete_one "p1" "bob" db) c2 Hwf Hk).
  reflexivity.
Defined.

(** ** Finding agents *)

(** X10: [nameExists] answers yes exactly when [findByName] finds an
    Agent, and the Agent found has the name asked for, up to case. *)
Theorem agents_nameExists_findByName (name : string) (db : Db.t) :
  (agents.nameExists name db = true
   <-> exists a, agents.findByName name db = Some a)
  /\ forall a,
       agents.findByName name db = Some a ->
       In a (obj_values (Db.agents db))
       /\ toLowerCase (Agent.name a) = toLowerCase name.
Proof.
  split.
  - apply find_existsb.
  - intros a H. apply find_some in H as [Hin Hn].
    split; [exact Hin|]. now apply String.eqb_eq.
Qed.

(** X11: when no Agent holds the new API key, the Agent just created is
    the one [findByApiKey] finds for it, and [findById] finds it under its
    identifier. *)
Theorem agents_create_lookup (data : AgentData.t) (id apiKey : string)
    (now now' : Z) (db : Db.t) :
  agents.findByApiKey apiKey db = None ->
  agents.findByApiKey apiKey (fst (agents.create data id apiKey now now' db))
  = Some (snd (agents.create data id apiKey now now' db))
  /\ agents.findById id (fst (agents.create data id apiKey now now' db))
     = Some (snd (agents.create data id apiKey now now' db)).
Proof.
  intros Hnone. unfold agents.findByApiKey, agents.findById in *. simpl.
  split; [|apply obj_get_set_same].
  apply find_set_new; [|apply String.eqb_refl].
  intros x Hx. exact (find_none _ _ Hnone x Hx).
Qed.

Lemma agents_create_lookup_witness :
  let ada := Agent.mk "u1" "Ada" "Ada L." None None None [] "th_1" 1 1 in
  let db := Db.mk [("u1", ada)] [] [] [] [] in
  let data := AgentData.mk "bob" "Bob" None None None None in
  agents.findByApiKey "th_2" db = None
  /\ agents.findByApiKey "th_2" (fst (agents.create data "u2" "th_2" 2 2 db))
     = Some (snd (agents.create data "u2" "th_2" 2 2 db)).
Proof.
  intros ada db data. split; [reflexivity|].
  apply (agents_create_lookup data "u2" "th_2" 2 2 db). reflexivity.
Defined.

(** ** Listing, with every filter *)

Lemma filter_filter (A : Type) (f g : A -> bool) (l : list A) :
  filter g (filter f l) = filter (fun x => f x && g x) l.
Proof.
  induction l as [|x l IH]; simpl; [reflexivity|].
  destruct (f x); simpl; [destruct (g x)|]; now rewrite IH.
Qed.

Lemma StronglySorted_firstn (A : Type) (R : A -> A -> Prop) (n : nat)
    (l : list A) :
  StronglySorted R l -> StronglySorted R (firstn n l).
Proof.
  intros H. revert n. induction H as [|x l Hs IH Hx]; intros [|n]; simpl;
    try constructor; auto.
  rewrite Forall_forall in *. intros y Hy. apply Hx.
  now apply In_firstn in Hy.
Qed.

(** Without a limit, [findAll] is the stable sort of the Projects that
    pass the filters. *)
Lemma projects_findAll_unlimited (exponent_head : Z -> Z) (f : Filters.t)
    (db : Db.t) :
  projects.findAll exponent_head (Filters.with_limit None f) db
  = sort_by projects.newest_first
      (filter (matches f) (obj_values (Db.projects db))).
Proof.
  unfold projects.findAll, matches. simpl. f_equal.
  set (l := obj_values (Db.projects db)).
  destruct (truthy_str (Filters.category f)) as [c|];
    destruct (truthy_str (Filters.status f)) as [s|];
    destruct (truthy_str (Filters.skill f)) as [k|];
    rewrite ?filter_filter; apply filter_ext; intros p; simpl;
    rewrite ?andb_assoc, ?andb_true_r; reflexivity.
Qed.

Lemma projects_findAll_prefix (exponent_head : Z -> Z) (f : Filters.t)
    (db : Db.t) :
  exists n,
    projects.findAll exponent_head f db
    = firstn n (projects.findAll exponent_head (Filters.with_limit None f) db).
Proof.
  destruct f as [c s k n]. unfold projects.findAll, Filters.with_limit.
  cbn [Filters.category Filters.status Filters.skill Filters.limit truthy_num].
  cbv zeta.
  destruct (truthy_num n) as [z|].
  - unfold slice0.
    destruct (parseInt_number exponent_head z <? 0)%Z; eauto.
  - eexists. symmetry. apply firstn_all.
Qed.

(** X12: whatever the filters, every Project [findAll] returns is in the
    store and passes each filter provided, the result is in order of
    creation, newest first, and without a limit (or with the limit 0)
    it is exactly the Projects that pass. *)
Theorem projects_findAll_sound (exponent_head : Z -> Z) (f : Filters.t)
    (db : Db.t) :
  (forall p, In p (projects.findAll exponent_head f db) ->
             In p (obj_values (Db.projects db)) /\ matches f p = true)
  /\ StronglySorted
       (fun a b => (Project.created_at b <= Project.created_at a)%Z)
       (projects.findAll exponent_head f db)
  /\ (Filters.limit f = None \/ Filters.limit f = Some 0%Z ->
      Permutation (projects.findAll exponent_head f db)
                  (filter (matches f) (obj_values (Db.projects db)))).
Proof.
  destruct (projects_findAll_prefix exponent_head f db) as [n Hn].
  pose proof (projects_findAll_unlimited exponent_head f db) as Hall.
  repeat split.
  - rewrite Hn, Hall in H. apply In_firstn in H.
    apply (Permutation_in _ (sort_by_perm _ _ _)) in H.
    now apply filter_In in H.
  - rewrite Hn, Hall in H. apply In_firstn in H.
    apply (Permutation_in _ (sort_by_perm _ _ _)) in H.
    now apply filter_In in H.
  - rewrite Hn, Hall. apply StronglySorted_firstn.
    apply projects_newest_first_sorted.
  - intros Hl.
    assert (E : projects.findAll exponent_head f db
                = projects.findAll exponent_head (Filters.with_limit None f) db).
    { destruct f as [c s k l]. simpl in Hl.
      unfold projects.findAll, Filters.with_limit. simpl.
      destruct Hl as [-> | ->]; reflexivity. }
    rewrite E, Hall. apply sort_by_perm.
Qed.

Lemma projects_findAll_sound_witness :
  let p := fun id cat st t =>
             Project.mk id id "T" None cat st ["rust"] None "ada" t t in
  let db := Db.mk []
              [("p1", p "p1" "software" "seeking" 1%Z);
               ("p2", p "p2" "physical" "seeking" 2%Z);
               ("p3", p "p3" "software" "paused" 3%Z)]
              [] [] [] in
  let f := Filters.mk (Some "software") None (Some "rust") None in
  (Filters.limit f = None \/ Filters.limit f = Some 0%Z)
  /\ projects.findAll (fun _ : Z => 1%Z) f db = [p "p1" "software" "seeking" 1%Z]
  /\ Permutation (projects.findAll (fun _ : Z => 1%Z) f db)
                 (filter (matches f) (obj_values (Db.projects db))).
Proof.
  intros p db f.
  assert (Hl : Filters.limit f = None \/ Filters.limit f = Some 0%Z)
    by (left; reflexivity).
  split; [exact Hl|]. split; [reflexivity|].
  exact (proj2 (proj2 (projects_findAll_sound (fun _ : Z => 1%Z) f db)) Hl).
Defined.

(** ** API keys *)

Lemma hex_byte_decode (b : Byte.byte) :
  Byte.of_nat (hex_value (hex_digit (Byte.to_nat b / 16)) * 16
               + hex_value (hex_digit (Byte.to_nat b mod 16)))
  = Some b.
Proof. destruct b; reflexivity. Qed.

Lemma hex_byte_digits (b : Byte.byte) :
  forallb (fun c => chr_between 48 57 c || chr_between 97 102 c)
          [hex_digit (Byte.to_nat b / 16); hex_digit (Byte.to_nat b mod 16)]
  = true.
Proof. destruct b; reflexivity. Qed.

Lemma of_chars_inj (l l' : list ascii) : of_chars l = of_chars l' -> l = l'.
Proof.
  intros H. rewrite <- (chars_of_chars l), <- (chars_of_chars l').
  now rewrite H.
Qed.

Lemma to_hex_inj (buf : list Byte.byte) :
  forall buf', to_hex buf = to_hex buf' -> buf = buf'.
Proof.
  unfold to_hex.
  induction buf as [|b buf IH]; intros [|b' buf'] H;
    apply of_chars_inj in H; cbn [flat_map app] in H; try discriminate H;
    [reflexivity|].
  injection H as H1 H2 H3.
  assert (E : Some b = Some b').
  { pose proof (f_equal2
                  (fun c1 c2 => Byte.of_nat (hex_value c1 * 16 + hex_value c2))
                  H1 H2) as E.
    etransitivity; [symmetry; apply hex_byte_decode|].
    etransitivity; [exact E|apply hex_byte_decode]. }
  injection E as ->. f_equal. apply IH. exact (f_equal of_chars H3).
Qed.

Lemma to_hex_length (buf : list Byte.byte) :
  String.length (to_hex buf) = (2 * List.length buf)%nat.
Proof.
  unfold to_hex. rewrite of_chars_length.
  induction buf as [|b buf IH]; [reflexivity|].
  cbn [flat_map app List.length]. rewrite IH. simpl. lia.
Qed.

(** X13: an API key is ["th_"] followed by two lower-case hexadecimal
    digits for each random byte (67 characters for the 32 bytes the code
    draws), and different bytes give different keys. *)
Theorem generateApiKey_format (randomBytes : list Byte.byte) :
  String.length (generateApiKey randomBytes)
  = (3 + 2 * List.length randomBytes)%nat
  /\ (exists digits,
        generateApiKey randomBytes = "th_" ++ digits
        /\ forallb (fun c => chr_between 48 57 c || chr_between 97 102 c)
                   (chars digits) = true)
  /\ forall randomBytes',
       generateApiKey randomBytes = generateApiKey randomBytes' ->
       randomBytes = randomBytes'.
Proof.
  unfold generateApiKey. repeat split.
  - rewrite append_length, to_hex_length. reflexivity.
  - exists (to_hex randomBytes). split; [reflexivity|].
    unfold to_hex. rewrite chars_of_chars.
    induction randomBytes as [|b buf IH]; [reflexivity|].
    change (flat_map
              (fun b0 => [hex_digit (Byte.to_nat b0 / 16);
                          hex_digit (Byte.to_nat b0 mod 16)]) (b :: buf))
      with ([hex_digit (Byte.to_nat b / 16); hex_digit (Byte.to_nat b mod 16)]
            ++ flat_map
                 (fun b0 => [hex_digit (Byte.to_nat b0 / 16);
                             hex_digit (Byte.to_nat b0 mod 16)]) buf)%list.
    rewrite forallb_app, IH, hex_byte_digits. reflexivity.
  - intros buf' H. apply append_cancel_l in H. now apply to_hex_inj.
Qed.

(** * Properties of the HTTP layer *)

(** ** More on objects *)

Section ObjMore.
Variable A : Type.
Implicit Types (o : obj A) (k : string) (v : A).

Lemma obj_set_In k v o k' v' :
  In (k', v') (obj_set k v o) -> (k' = k /\ v' = v) \/ In (k', v') o.
Proof.
  induction o as [|[k0 v0] o IH]; simpl.
  - intros [H|[]]. injection H as <- <-. now left.
  - destruct (String.eqb k k0); simpl.
    + intros [H|H]; [injection H as <- <-; now left|right; now right].
    + intros [H|H]; [right; now left|].
      destruct (IH H) as [H'|H']; [now left|right; now right].
Qed.

Lemma obj_set_In_new k v o : In (k, v) (obj_set k v o).
Proof.
  induction o as [|[k0 v0] o IH]; simpl; [now left|].
  destruct (String.eqb k k0); simpl; [now left|now right].
Qed.

Lemma obj_set_In_other k v o k' v' :
  In (k', v') o -> k' <> k -> In (k', v') (obj_set k v o).
Proof.
  intros Hin Hne. induction o as [|[k0 v0] o IH]; simpl; [contradiction|].
  destruct (String.eqb k k0) eqn:E; simpl.
  - apply String.eqb_eq in E. subst k0.
    destruct Hin as [H|H]; [injection H as <- _; congruence|now right].
  - destruct Hin as [H|H]; [now left|right; auto].
Qed.

Lemma obj_keys_set_incl k v o k' :
  In k' (obj_keys o) -> In k' (obj_keys (obj_set k v o)).
Proof.
  intros H. destruct (obj_get k o) as [v0|] eqn:E.
  - now rewrite (obj_keys_set_found A k v v0 o E).
  - rewrite obj_keys_set_fresh by exact E. apply in_or_app. now left.
Qed.

Lemma obj_keys_set_new k v o : In k (obj_keys (obj_set k v o)).
Proof. apply (in_map fst _ _ (obj_set_In_new k v o)). Qed.

Lemma values_In v o : In v (obj_values o) <-> exists k, In (k, v) o.
Proof.
  unfold obj_values. rewrite in_map_iff. split.
  - intros [[k v'] [<- H]]. now exists k.
  - intros [k H]. now exists (k, v).
Qed.

Lemma values_set_In k v o v' :
  In v' (obj_values (obj_set k v o)) -> v' = v \/ In v' (obj_values o).
Proof.
  rewrite !values_In. intros [k' H].
  apply obj_set_In in H as [[_ ->]|H]; [now left|right; eauto].
Qed.

Lemma values_set_new k v o : In v (obj_values (obj_set k v o)).
Proof. apply values_In. exists k. apply obj_set_In_new. Qed.

Variable id : A -> string.

Lemma keyed_set k v o : keyed id o -> id v = k -> keyed id (obj_set k v o).
Proof.
  unfold keyed. rewrite !Forall_forall. intros Ho Hv [k' v'] Hin.
  apply obj_set_In in Hin as [[-> ->]|Hin]; [exact Hv|now apply Ho].
Qed.

Lemma keyed_filter (g : string * A -> bool) o :
  keyed id o -> keyed id (filter g o).
Proof.
  unfold keyed. rewrite !Forall_forall. intros Ho kv Hin.
  apply filter_In in Hin as [Hin _]. now apply Ho.
Qed.

Lemma keyed_In v o : keyed id o -> In v (obj_values o) -> In (id v, v) o.
Proof.
  unfold keyed. rewrite Forall_forall, values_In. intros Ho [k Hin].
  pose proof (Ho _ Hin) as E. simpl in E. now rewrite E.
Qed.

Lemma keyed_get v o :
  obj_wf o -> keyed id o -> In v (obj_values o) -> obj_get (id v) o = Some v.
Proof.
  intros Hwf Hk Hin. apply In_obj_get; [exact Hwf|]. now apply keyed_In.
Qed.

(** Two records of a collection with one identifier are one record. *)
Lemma keyed_inj v v' o :
  obj_wf o -> keyed id o -> In v (obj_values o) -> In v' (obj_values o) ->
  id v = id v' -> v = v'.
Proof.
  intros Hwf Hk Hv Hv' E.
  pose proof (keyed_get v o Hwf Hk Hv) as H.
  pose proof (keyed_get v' o Hwf Hk Hv') as H'.
  rewrite E in H. congruence.
Qed.

Lemma keyed_key_In v o : keyed id o -> In v (obj_values o) ->
  In (id v) (obj_keys o).
Proof.
  intros Hk Hin. apply (in_map fst _ _ (keyed_In v o Hk Hin)).
Qed.
End ObjMore.

Lemma unused_get (A : Type) (k : string) (o : obj A) :
  server.unused k o = true -> obj_get k o = None.
Proof. unfold server.unused. now destruct (obj_get k o). Qed.

Lemma find_none_not_In (A B : Type) (f : A -> B) (eqb : B -> B -> bool)
    (Heqb : forall x y, eqb x y = true <-> x = y) (b : B) (l : list A) :
  find (fun y => eqb (f y) b) l = None -> ~ In b (map f l).
Proof.
  intros H Hin. apply in_map_iff in Hin as [x [Hx Hin]].
  pose proof (find_none _ _ H x Hin) as Hf. simpl in Hf.
  assert (Ht : eqb (f x) b = true) by now apply Heqb. congruence.
Qed.

(** ** What each change of the store keeps *)

Ltac inv_parts H :=
  destruct H as [[Hwa [Hwp [Hwc [Hwu Hwm]]]]
                   [[Hka [Hkp Hkc]]
                      [Hslugs [Hnames [Hpairs [[Hoc [Hou Hom]] Hcre]]]]]].

Ltac inv_split :=
  unfold api_inv, db_wf, db_keyed, no_orphans;
  cbn [Db.agents Db.projects Db.collaborations Db.updates Db.comments
       Db.with_agents Db.with_projects Db.with_collaborations
       Db.with_updates Db.with_comments].

Lemma inv_empty : api_inv Db.empty.
Proof.
  unfold api_inv, db_wf, db_keyed, slugs_unique, names_unique, pairs_unique,
    no_orphans, creators_are_members, obj_wf, keyed. simpl.
  repeat split; try constructor; intros ? [].
Qed.

Lemma inv_agent_create (data : AgentData.t) (id apiKey : string)
    (now now' : Z) (db : Db.t) :
  api_inv db ->
  agents.nameExists (AgentData.name data) db = false ->
  api_inv (fst (agents.create data id apiKey now now' db)).
Proof.
  intros H Hname. inv_parts H. unfold agents.create. cbn [fst].
  inv_split. repeat split; auto using obj_wf_set.
  - now apply keyed_set.
  - unfold names_unique. cbn [Db.agents Db.with_agents].
    apply field_set_new; [exact Hnames|]. cbn [Agent.name].
    intros Hin. apply in_map_iff in Hin as [a [Ha Hin]].
    unfold agents.nameExists in Hname.
    assert (Ht : existsb
                   (fun a => String.eqb (toLowerCase (Agent.name a))
                               (toLowerCase (AgentData.name data)))
                   (obj_values (Db.agents db)) = true).
    { apply existsb_exists. exists a. split; [exact Hin|].
      now apply String.eqb_eq. }
    congruence.
Qed.

Lemma inv_agent_update (a : Agent.t) (data : AgentPatch.t) (now : Z)
    (db : Db.t) :
  api_inv db ->
  In a (obj_values (Db.agents db)) ->
  AgentPatch.id data = None -> AgentPatch.name data = None ->
  api_inv (fst (agents.update (Agent.id a) data now db)).
Proof.
  intros H Hin Hid Hname. inv_parts H. unfold agents.update.
  rewrite (keyed_get _ Agent.id a _ Hwa Hka Hin). cbn [fst].
  inv_split. repeat split; auto using obj_wf_set.
  - apply keyed_set; [exact Hka|]. simpl. now rewrite Hid.
  - unfold names_unique. cbn [Db.agents Db.with_agents].
    rewrite (field_set_same _ _ (fun a => toLowerCase (Agent.name a))
               (Agent.id a) _ a); [exact Hnames| |].
    + exact (keyed_get _ Agent.id a _ Hwa Hka Hin).
    + simpl. now rewrite Hname.
Qed.

Lemma inv_collaboration_create (data : CollaborationData.t) (id : string)
    (now : Z) (db : Db.t) :
  api_inv db ->
  obj_get id (Db.collaborations db) = None ->
  In (CollaborationData.projectId data) (obj_keys (Db.projects db)) ->
  collaborations.findByProjectAndAgent (CollaborationData.projectId data)
    (CollaborationData.agentId data) db = None ->
  api_inv (fst (collaborations.create data id now db)).
Proof.
  intros H Hid Hproj Hnone. inv_parts H. unfold collaborations.create.
  cbn [fst]. inv_split. repeat split; auto using obj_wf_set.
  - now apply keyed_set.
  - unfold pairs_unique. cbn [Db.collaborations Db.with_collaborations].
    apply field_set_new; [exact Hpairs|].
    cbn [Collaboration.project_id Collaboration.agent_id].
    intros Hin. apply in_map_iff in Hin as [c [Hc Hin]].
    unfold collaborations.findByProjectAndAgent in Hnone.
    pose proof (find_none _ _ Hnone c Hin) as Hf. simpl in Hf.
    injection Hc as H1 H2. rewrite H1, H2, !String.eqb_refl in Hf.
    discriminate Hf.
  - intros c Hc. apply values_set_In in Hc as [->|Hc]; auto.
  - unfold creators_are_members.
    cbn [Db.collaborations Db.with_collaborations Db.projects].
    intros p Hp. destruct (Hcre p Hp) as [c [Hc Hrest]].
    exists c. split; [|exact Hrest].
    apply values_In in Hc as [k Hc]. apply values_In. exists k.
    apply obj_set_In_other; [exact Hc|].
    intros ->. apply (in_map fst) in Hc.
    apply (proj1 (obj_get_None _ _ _) Hid). exact Hc.
Qed.

Lemma inv_project_create (data : ProjectData.t) (id : string) (now now' : Z)
    (collabId : string) (collabNow : Z) (db db1 : Db.t) (p : Project.t) :
  api_inv db ->
  obj_get id (Db.projects db) = None ->
  obj_get collabId (Db.collaborations db) = None ->
  projects.create data id now now' db = Some (db1, p) ->
  api_inv
    (fst (collaborations.create
            {| CollaborationData.projectId := Project.id p;
               CollaborationData.agentId := ProjectData.creatorId data;
               CollaborationData.role := Some "creator";
               CollaborationData.pitch := None;
               CollaborationData.status := Some "accepted" |}
            collabId collabNow db1)).
Proof.
  intros H Hid Hcid Hcreate.
  pose proof (projects_create_slugs_unique data id now now' db db1 p
                (proj1 (proj2 (proj2 H))) Hcreate) as Hslugs1.
  inv_parts H. unfold projects.create in Hcreate.
  destruct (uniqueSlug db (slugify (ProjectData.title data))) as [s|];
    [|discriminate].
  injection Hcreate as <- <-.
  unfold collaborations.create. cbn [fst Project.id].
  inv_split. repeat split; auto using obj_wf_set.
  - now apply keyed_set.
  - now apply keyed_set.
  - unfold pairs_unique.
    cbn [Db.collaborations Db.with_collaborations Db.with_projects].
    apply field_set_new; [exact Hpairs|].
    cbn [Collaboration.project_id Collaboration.agent_id
         CollaborationData.projectId CollaborationData.agentId].
    intros Hin. apply in_map_iff in Hin as [c [Hc Hin]].
    injection Hc as H1 _. apply Hoc in Hin. rewrite H1 in Hin.
    apply (proj1 (obj_get_None _ _ _) Hid). exact Hin.
  - intros c Hc. apply values_set_In in Hc as [->|Hc].
    + apply obj_keys_set_new.
    + apply obj_keys_set_incl. auto.
  - intros u Hu. apply obj_keys_set_incl. auto.
  - intros c Hc. apply obj_keys_set_incl. auto.
  - unfold creators_are_members.
    cbn [Db.collaborations Db.with_collaborations Db.with_projects
         Db.projects].
    intros q Hq. apply values_set_In in Hq as [->|Hq].
    + eexists. split; [apply values_set_new|]. now repeat split.
    + destruct (Hcre q Hq) as [c [Hc Hrest]].
      exists c. split; [|exact Hrest].
      apply values_In in Hc as [k Hc]. apply values_In. exists k.
      apply obj_set_In_other; [exact Hc|].
      intros ->. apply (in_map fst) in Hc.
      apply (proj1 (obj_get_None _ _ _) Hcid). exact Hc.
Qed.

Lemma inv_project_update (p : Project.t) (data : ProjectPatch.t) (now : Z)
    (db : Db.t) :
  api_inv db ->
  In p (obj_values (Db.projects db)) ->
  ProjectPatch.id data = None -> ProjectPatch.slug data = None ->
  ProjectPatch.creator_id data = None ->
  api_inv (fst (projects.update (Project.id p) data now db)).
Proof.
  intros H Hin Hid Hslug Hcreator.
  pose proof (projects_update_slugs (Project.id p) data now db Hslug) as Hs.
  inv_parts H.
  pose proof (keyed_get _ Project.id p _ Hwp Hkp Hin) as Hget.
  assert (Hslugs' :
            slugs_unique (fst (projects.update (Project.id p) data now db))).
  { unfold slugs_unique. now rewrite Hs. }
  clear Hs. unfold projects.update in *. rewrite Hget in *. cbn [fst] in *.
  inv_split. repeat split; auto using obj_wf_set.
  - apply keyed_set; [exact Hkp|]. simpl. now rewrite Hid.
  - intros c Hc. rewrite (obj_keys_set_found _ _ _ p) by exact Hget. auto.
  - intros u Hu. rewrite (obj_keys_set_found _ _ _ p) by exact Hget. auto.
  - intros c Hc. rewrite (obj_keys_set_found _ _ _ p) by exact Hget. auto.
  - unfold creators_are_members.
    cbn [Db.collaborations Db.with_projects Db.projects].
    intros q Hq. apply values_set_In in Hq as [->|Hq]; [|auto].
    destruct (Hcre p Hin) as [c [Hc [H1 [H2 H3]]]].
    exists c. simpl. rewrite Hid, Hcreator. auto.
Qed.

Lemma inv_project_delete (id : string) (db : Db.t) :
  api_inv db -> api_inv (projects.delete id db).
Proof.
  intros H. inv_parts H. unfold projects.delete.
  rewrite !cascade_filter by assumption.
  inv_split. repeat split;
    auto using obj_wf_delete, obj_wf_filter, keyed_filter.
  - now apply keyed_filter.
  - unfold slugs_unique, slugs. cbn [Db.projects]. now apply field_filter.
  - unfold pairs_unique. cbn [Db.collaborations]. now apply field_filter.
  - intros c Hc. apply values_In in Hc as [k Hc].
    apply filter_In in Hc as [Hc Hk]. unfold kept in Hk. simpl in Hk.
    rewrite obj_keys_delete. apply filter_In. split.
    + apply Hoc. apply values_In. eauto.
    + rewrite String.eqb_sym. exact Hk.
  - intros u Hu. apply values_In in Hu as [k Hu].
    apply filter_In in Hu as [Hu Hk]. unfold kept in Hk. simpl in Hk.
    rewrite obj_keys_delete. apply filter_In. split.
    + apply Hou. apply values_In. eauto.
    + rewrite String.eqb_sym. exact Hk.
  - intros c Hc. apply values_In in Hc as [k Hc].
    apply filter_In in Hc as [Hc Hk]. unfold kept in Hk. simpl in Hk.
    rewrite obj_keys_delete. apply filter_In. split.
    + apply Hom. apply values_In. eauto.
    + rewrite String.eqb_sym. exact Hk.
  - unfold creators_are_members. cbn [Db.collaborations Db.projects].
    intros q Hq. apply values_In in Hq as [k Hq].
    apply filter_In in Hq as [Hq Hk]. simpl in Hk.
    assert (Hqv : In q (obj_values (Db.projects db)))
      by (apply values_In; eauto).
    assert (Hkq : Project.id q = k).
    { unfold keyed in Hkp. rewrite Forall_forall in Hkp.
      exact (Hkp _ Hq). }
    destruct (Hcre q Hqv) as [c [Hc [H1 Hrest]]].
    exists c. split; [|now split].
    apply values_In in Hc as [kc Hc]. apply values_In. exists kc.
    apply filter_In. split; [exact Hc|].
    unfold kept. simpl. rewrite H1, Hkq, String.eqb_sym. exact Hk.
Qed.

Lemma inv_collaboration_delete (p : Project.t) (agentId : string)
    (db : Db.t) :
  api_inv db ->
  In p (obj_values (Db.projects db)) ->
  Project.creator_id p <> agentId ->
  api_inv (collaborations.delete (Project.id p) agentId db).
Proof.
  intros H Hp Hne. unfold collaborations.delete.
  destruct (collaborations.findByProjectAndAgent (Project.id p) agentId db)
    as [c|] eqn:Hf; [|exact H].
  inv_parts H. unfold collaborations.findByProjectAndAgent in Hf.
  apply find_some in Hf as [Hc Ht]. apply andb_prop in Ht as [Ht1 Ht2].
  apply String.eqb_eq in Ht1, Ht2.
  inv_split. repeat split; auto using obj_wf_delete.
  - now apply keyed_filter.
  - unfold pairs_unique. cbn [Db.collaborations Db.with_collaborations].
    now apply field_filter.
  - intros c' Hc'. apply Hoc. apply values_In in Hc' as [k Hc'].
    apply filter_In in Hc' as [Hc' _]. apply values_In. eauto.
  - unfold creators_are_members.
    cbn [Db.collaborations Db.with_collaborations Db.projects].
    intros q Hq. destruct (Hcre q Hq) as [c' [Hc' [H1 [H2 H3]]]].
    exists c'. split; [|auto].
    pose proof (keyed_In _ Collaboration.id c' _ Hkc Hc') as Hin.
    apply values_In. exists (Collaboration.id c').
    apply filter_In. split; [exact Hin|]. simpl.
    apply Bool.negb_true_iff. apply String.eqb_neq. intros E.
    assert (Hcc : c = c').
    { apply (keyed_inj _ Collaboration.id c c' _ Hwc Hkc Hc Hc' E). }
    subst c'.
    assert (Hqp : q = p).
    { apply (keyed_inj _ Project.id q p _ Hwp Hkp Hq Hp). congruence. }
    subst q. congruence.
Qed.

Lemma inv_collaboration_status (c : Collaboration.t) (status : string)
    (db : Db.t) :
  api_inv db ->
  In c (obj_values (Db.collaborations db)) ->
  api_inv (fst (collaborations.update (Collaboration.id c)
                  (server.status_patch status) db)).
Proof.
  intros H Hc. inv_parts H.
  pose proof (keyed_get _ Collaboration.id c _ Hwc Hkc Hc) as Hget.
  unfold collaborations.update. rewrite Hget. cbn [fst].
  inv_split. repeat split; auto using obj_wf_set.
  - now apply keyed_set.
  - unfold pairs_unique. cbn [Db.collaborations Db.with_collaborations].
    rewrite (field_set_same _ _
               (fun c => (Collaboration.project_id c, Collaboration.agent_id c))
               (Collaboration.id c) _ c); auto.
  - intros c' Hc'. apply values_set_In in Hc' as [->|Hc']; [|auto].
    simpl. auto.
  - unfold creators_are_members.
    cbn [Db.collaborations Db.with_collaborations Db.projects].
    intros q Hq. destruct (Hcre q Hq) as [c' [Hc' [H1 [H2 H3]]]].
    destruct (String.eqb (Collaboration.id c') (Collaboration.id c)) eqn:E.
    + apply String.eqb_eq in E.
      assert (Hcc : c' = c)
        by (apply (keyed_inj _ Collaboration.id c' c _ Hwc Hkc Hc' Hc E)).
      subst c'. eexists. split; [apply values_set_new|]. simpl. auto.
    + apply String.eqb_neq in E. exists c'. split; [|auto].
      apply values_In. exists (Collaboration.id c').
      apply obj_set_In_other; [|exact E]. now apply keyed_In.
Qed.

Lemma inv_update_create (p : Project.t) (data : EntryData.t) (id : string)
    (now : Z) (db : Db.t) :
  api_inv db ->
  In p (obj_values (Db.projects db)) ->
  EntryData.projectId data = Project.id p ->
  api_inv (fst (updates.create data id now db)).
Proof.
  intros H Hp Hd. inv_parts H. unfold updates.create. cbn [fst].
  inv_split. repeat split; auto using obj_wf_set.
  intros u Hu. apply values_set_In in Hu as [->|Hu]; [|auto].
  simpl. rewrite Hd. now apply keyed_key_In.
Qed.

Lemma inv_comment_create (p : Project.t) (data : EntryData.t) (id : string)
    (now : Z) (db : Db.t) :
  api_inv db ->
  In p (obj_values (Db.projects db)) ->
  EntryData.projectId data = Project.id p ->
  api_inv (fst (comments.create data id now db)).
Proof.
  intros H Hp Hd. inv_parts H. unfold comments.create. cbn [fst].
  inv_split. repeat split; auto using obj_wf_set.
  intros c Hc. apply values_set_In in Hc as [->|Hc]; [|auto].
  simpl. rewrite Hd. now apply keyed_key_In.
Qed.

(** ** What each handler keeps *)

Lemma authenticate_In (authorization : option string) (db : Db.t)
    (a : Agent.t) :
  server.authenticate authorization db = Some a ->
  In a (obj_values (Db.agents db)).
Proof.
  unfold server.authenticate, agents.findByApiKey.
  destruct (server.bearer authorization); [|discriminate].
  intros H. now apply find_some in H.
Qed.

Lemma findBySlug_In (slug : string) (db : Db.t) (p : Project.t) :
  projects.findBySlug slug db = Some p ->
  In p (obj_values (Db.projects db)).
Proof. unfold projects.findBySlug. intros H. now apply find_some in H. Qed.

Lemma handle_inv (r : server.request) (db : Db.t) :
  api_inv db -> server.fresh r db = true ->
  api_inv (snd (server.handle r db)).
Proof.
  intros H Hfresh. destruct r; cbn [server.handle server.fresh] in *.
  - (* register *)
    unfold server.register.
    destruct (truthy_str (RegisterBody.name body)) as [name|]; [|exact H].
    destruct (truthy_str (RegisterBody.displayName body)); [|exact H].
    destruct (server.url_safe_name name); [|exact H]. cbn [negb].
    destruct (agents.nameExists name db) eqn:E; [exact H|].
    cbn [snd]. apply inv_agent_create; [exact H|exact E].
  - (* patch_me *)
    unfold server.patch_me.
    destruct (server.authenticate authorization db) as [a|] eqn:Ha;
      [|exact H].
    destruct (server.profile_empty body); [exact H|].
    pose proof (inv_agent_update a (server.profile_patch body) now db H
                  (authenticate_In _ _ _ Ha) eq_refl eq_refl) as H'.
    destruct (agents.update (Agent.id a) (server.profile_patch body) now db)
      as [db' [x|]]; exact H'.
  - (* create_project *)
    unfold server.create_project.
    destruct (server.authenticate authorization db) as [a|]; [|exact H].
    destruct (truthy_str (ProjectBody.title body)) as [title|]; [|exact H].
    destruct (match truthy_str (ProjectBody.category body) with
              | Some category =>
                  negb (includes server.validCategories category)
              | None => false
              end); [exact H|].
    apply andb_prop in Hfresh as [Hf1 Hf2].
    apply unused_get in Hf1, Hf2.
    match goal with
    | |- context [projects.create ?d id now now' db] =>
        destruct (projects.create d id now now' db) as [[db1 p]|] eqn:Hc;
        [|exact H];
        exact (inv_project_create d id now now' collabId collabNow db db1 p
                 H Hf1 Hf2 Hc)
    end.
  - (* patch_project *)
    unfold server.patch_project.
    destruct (server.authenticate authorization db) as [a|]; [|exact H].
    destruct (projects.findBySlug slug db) as [p|] eqn:Hp; [|exact H].
    destruct (negb (String.eqb (Project.creator_id p) (Agent.id a)));
      [exact H|].
    destruct (server.project_patch_empty body); [exact H|].
    pose proof (inv_project_update p (server.project_patch body) now db H
                  (findBySlug_In _ _ _ Hp) eq_refl eq_refl eq_refl) as H'.
    destruct (projects.update (Project.id p) (server.project_patch body)
                now db) as [db' [x|]]; exact H'.
  - (* delete_project *)
    unfold server.delete_project.
    destruct (server.authenticate authorization db) as [a|]; [|exact H].
    destruct (projects.findBySlug slug db) as [p|]; [|exact H].
    destruct (negb (String.eqb (Project.creator_id p) (Agent.id a)));
      [exact H|].
    now apply inv_project_delete.
  - (* join *)
    unfold server.join.
    destruct (server.authenticate authorization db) as [a|]; [|exact H].
    destruct (projects.findBySlug slug db) as [p|] eqn:Hp; [|exact H].
    destruct (collaborations.findByProjectAndAgent (Project.id p)
                (Agent.id a) db) eqn:Hf; [exact H|].
    cbn [snd]. apply inv_collaboration_create; auto.
    + now apply unused_get.
    + cbn [CollaborationData.projectId]. apply keyed_key_In; [exact (proj1 (proj2 (proj1 (proj2 H))))|].
      exact (findBySlug_In _ _ _ Hp).
  - (* leave *)
    unfold server.leave.
    destruct (server.authenticate authorization db) as [a|]; [|exact H].
    destruct (projects.findBySlug slug db) as [p|] eqn:Hp; [|exact H].
    destruct (String.eqb (Project.creator_id p) (Agent.id a)) eqn:E;
      [exact H|].
    apply String.eqb_neq in E.
    apply inv_collaboration_delete; auto. exact (findBySlug_In _ _ _ Hp).
  - (* manage_collaborator *)
    unfold server.manage_collaborator.
    destruct (server.authenticate authorization db) as [a|]; [|exact H].
    destruct (projects.findBySlug slug db) as [p|]; [|exact H].
    destruct (negb (String.eqb (Project.creator_id p) (Agent.id a)));
      [exact H|].
    destruct (agents.findByName agentName db) as [b|]; [|exact H].
    destruct status as [st|]; [|exact H].
    destruct (negb (includes ["accepted"; "declined"] st)); [exact H|].
    destruct (collaborations.findByProjectAndAgent (Project.id p)
                (Agent.id b) db) as [c|] eqn:Hf; [|exact H].
    apply inv_collaboration_status; [exact H|].
    unfold collaborations.findByProjectAndAgent in Hf.
    now apply find_some in Hf.
  - (* post_update *)
    unfold server.post_update.
    destruct (server.authenticate authorization db) as [a|]; [|exact H].
    destruct (projects.findBySlug slug db) as [p|] eqn:Hp; [|exact H].
    destruct (collaborations.findByProjectAndAgent (Project.id p)
                (Agent.id a) db) as [c|]; [|exact H].
    destruct (negb (String.eqb (Collaboration.status c) "accepted"));
      [exact H|].
    destruct (truthy_str content) as [text|]; [|exact H].
    cbn [snd]. apply inv_project_update; try reflexivity.
    + apply (inv_update_create p); auto. exact (findBySlug_In _ _ _ Hp).
    + exact (findBySlug_In _ _ _ Hp).
  - (* post_comment *)
    unfold server.post_comment.
    destruct (server.authenticate authorization db) as [a|]; [|exact H].
    destruct (projects.findBySlug slug db) as [p|] eqn:Hp; [|exact H].
    destruct (truthy_str content) as [text|]; [|exact H].
    apply (inv_comment_create p); auto. exact (findBySlug_In _ _ _ Hp).
Qed.

Lemma serve_inv (rs : list server.request) :
  forall db,
    api_inv db -> server.all_fresh rs db = true ->
    api_inv (server.serve rs db).
Proof.
  induction rs as [|r rs IH]; intros db H Hf; simpl in *; [exact H|].
  apply andb_prop in Hf as [Hf1 Hf2].
  apply IH; [|exact Hf2]. now apply handle_inv.
Qed.

Lemma served_inv (rs : list server.request) :
  server.all_fresh rs Db.empty = true ->
  api_inv (server.serve rs Db.empty).
Proof. apply serve_inv, inv_empty. Qed.

(** ** What the HTTP layer guarantees *)

(** X15: after any sequence of requests, no two Agents have the same
    name up to case: registration checks [nameExists] and the profile
    update never carries a name. *)
Theorem served_names_unique (rs : list server.request) :
  server.all_fresh rs Db.empty = true ->
  names_unique (server.serve rs Db.empty).
Proof. intros H. apply (served_inv rs H). Qed.

Lemma served_names_unique_witness :
  server.all_fresh Session.requests Db.empty = true
  /\ map Agent.name
       (obj_values (Db.agents (server.serve Session.requests Db.empty)))
     = ["Ada"; "bob"]
  /\ names_unique (server.serve Session.requests Db.empty).
Proof.
  split; [reflexivity|]. split; [reflexivity|].
  apply (served_names_unique Session.requests). reflexivity.
Defined.

(** X16: after any sequence of requests, no two Projects have the same
    slug: the project update of the HTTP layer never carries a slug. *)
Theorem served_slugs_unique (rs : list server.request) :
  server.all_fresh rs Db.empty = true ->
  slugs_unique (server.serve rs Db.empty).
Proof. intros H. apply (served_inv rs H). Qed.

Lemma served_slugs_unique_witness :
  server.all_fresh Session.requests Db.empty = true
  /\ slugs_unique (server.serve Session.requests Db.empty).
Proof.
  split; [reflexivity|].
  apply (served_slugs_unique Session.requests). reflexivity.
Defined.

(** X17: after any sequence of requests, an agent has at most one
    Collaboration with a project: joining twice is refused. *)
Theorem served_pairs_unique (rs : list server.request) :
  server.all_fresh rs Db.empty = true ->
  pairs_unique (server.serve rs Db.empty).
Proof. intros H. apply (served_inv rs H). Qed.

Lemma served_pairs_unique_witness :
  server.all_fresh Session.requests Db.empty = true
  /\ obj_keys (Db.collaborations (server.serve Session.requests Db.empty))
     = ["c1"; "c2"]
  /\ pairs_unique (server.serve Session.requests Db.empty).
Proof.
  split; [reflexivity|]. split; [reflexivity|].
  apply (served_pairs_unique Session.requests). reflexivity.
Defined.

(** X18: after any sequence of requests, every Collaboration, Update and
    Comment belongs to a Project that the store holds. *)
Theorem served_no_orphans (rs : list server.request) :
  server.all_fresh rs Db.empty = true ->
  no_orphans (server.serve rs Db.empty).
Proof. intros H. apply (served_inv rs H). Qed.

Lemma served_no_orphans_witness :
  server.all_fresh
    (Session.requests
       ++ [server.DeleteProject Session.ada "self-balancing-robot"])%list
    Db.empty = true
  /\ Db.collaborations
       (server.serve
          (Session.requests
             ++ [server.DeleteProject Session.ada "self-balancing-robot"])%list
          Db.empty) = []
  /\ no_orphans
       (server.serve
          (Session.requests
             ++ [server.DeleteProject Session.ada "self-balancing-robot"])%list
          Db.empty).
Proof.
  split; [reflexivity|]. split; [reflexivity|].
  apply (served_no_orphans
           (Session.requests
              ++ [server.DeleteProject Session.ada "self-balancing-robot"])%list).
  reflexivity.
Defined.

(** X19: after any sequence of requests, every Project has the
    Collaboration of its creator, in the role "creator": the creator
    cannot leave, and nothing else removes it but deleting the
    Project. *)
Theorem served_creators_are_members (rs : list server.request) :
  server.all_fresh rs Db.empty = true ->
  creators_are_members (server.serve rs Db.empty).
Proof. intros H. apply (served_inv rs H). Qed.

Lemma served_creators_are_members_witness :
  server.all_fresh
    (Session.requests ++ [server.Leave Session.ada "self-balancing-robot"])%list
    Db.empty = true
  /\ creators_are_members
       (server.serve
          (Session.requests
             ++ [server.Leave Session.ada "self-balancing-robot"])%list
          Db.empty).
Proof.
  split; [reflexivity|].
  apply (served_creators_are_members
           (Session.requests
              ++ [server.Leave Session.ada "self-balancing-robot"])%list).
  reflexivity.
Defined.

(** X20: a request answered with a status from 400 to 499 (400, 401,
    403, 404, 409) leaves the store exactly as it was: every such answer
    is given before the handler changes anything. *)
Theorem handle_error_keeps_store (r : server.request) (db : Db.t) :
  (400 <= fst (server.handle r db) < 500)%nat ->
  snd (server.handle r db) = db.
Proof.
  destruct r; cbn [server.handle].
  - unfold server.register.
    destruct (truthy_str (RegisterBody.name body)); [|reflexivity].
    destruct (truthy_str (RegisterBody.displayName body)); [|reflexivity].
    destruct (negb (server.url_safe_name s)); [reflexivity|].
    destruct (agents.nameExists s db); [reflexivity|].
    cbn [fst]. lia.
  - unfold server.patch_me.
    destruct (server.authenticate authorization db); [|reflexivity].
    destruct (server.profile_empty body); [reflexivity|].
    unfold agents.update.
    destruct (obj_get (Agent.id t) (Db.agents db)); cbn [fst snd];
      [lia|lia].
  - unfold server.create_project.
    destruct (server.authenticate authorization db); [|reflexivity].
    destruct (truthy_str (ProjectBody.title body)); [|reflexivity].
    destruct (match truthy_str (ProjectBody.category body) with
              | Some category =>
                  negb (includes server.validCategories category)
              | None => false
              end); [reflexivity|].
    match goal with
    | |- context [projects.create ?d id now now' db] =>
        destruct (projects.create d id now now' db) as [[db1 p]|];
        [cbn [fst]; lia|cbn [fst]; lia]
    end.
  - unfold server.patch_project.
    destruct (server.authenticate authorization db); [|reflexivity].
    destruct (projects.findBySlug slug db); [|reflexivity].
    destruct (negb (String.eqb (Project.creator_id t0) (Agent.id t)));
      [reflexivity|].
    destruct (server.project_patch_empty body); [reflexivity|].
    unfold projects.update.
    destruct (obj_get (Project.id t0) (Db.projects db)); cbn [fst snd];
      [lia|lia].
  - unfold server.delete_project.
    destruct (server.authenticate authorization db); [|reflexivity].
    destruct (projects.findBySlug slug db); [|reflexivity].
    destruct (negb (String.eqb (Project.creator_id t0) (Agent.id t)));
      [reflexivity|].
    cbn [fst]. lia.
  - unfold server.join.
    destruct (server.authenticate authorization db); [|reflexivity].
    destruct (projects.findBySlug slug db); [|reflexivity].
    destruct (collaborations.findByProjectAndAgent (Project.id t0)
                (Agent.id t) db); [reflexivity|].
    cbn [fst]. lia.
  - unfold server.leave.
    destruct (server.authenticate authorization db); [|reflexivity].
    destruct (projects.findBySlug slug db); [|reflexivity].
    destruct (String.eqb (Project.creator_id t0) (Agent.id t));
      [reflexivity|].
    cbn [fst]. lia.
  - unfold server.manage_collaborator.
    destruct (server.authenticate authorization db); [|reflexivity].
    destruct (projects.findBySlug slug db); [|reflexivity].
    destruct (negb (String.eqb (Project.creator_id t0) (Agent.id t)));
      [reflexivity|].
    destruct (agents.findByName agentName db); [|reflexivity].
    destruct status; [|reflexivity].
    destruct (negb (includes ["accepted"; "declined"] s)); [reflexivity|].
    destruct (collaborations.findByProjectAndAgent (Project.id t0)
                (Agent.id t1) db); [|reflexivity].
    cbn [fst]. lia.
  - unfold server.post_update.
    destruct (server.authenticate authorization db); [|reflexivity].
    destruct (projects.findBySlug slug db); [|reflexivity].
    destruct (collaborations.findByProjectAndAgent (Project.id t0)
                (Agent.id t) db); [|reflexivity].
    destruct (negb (String.eqb (Collaboration.status t1) "accepted"));
      [reflexivity|].
    destruct (truthy_str content); [|reflexivity].
    cbn [fst]. lia.
  - unfold server.post_comment.
    destruct (server.authenticate authorization db); [|reflexivity].
    destruct (projects.findBySlug slug db); [|reflexivity].
    destruct (truthy_str content); [|reflexivity].
    cbn [fst]. lia.
Qed.

Lemma handle_error_keeps_store_witness :
  let db := server.serve Session.requests Db.empty in
  let r := server.Join Session.bob "self-balancing-robot" None "c9" 9 in
  fst (server.handle r db) = 409%nat
  /\ (400 <= fst (server.handle r db) < 500)%nat
  /\ snd (server.handle r db) = db.
Proof.
  intros db r.
  assert (H : (400 <= fst (server.handle r db) < 500)%nat)
    by (vm_compute; lia).
  split; [reflexivity|]. split; [exact H|].
  exact (handle_error_keeps_store r db H).
Defined.

(** ** Authentication *)

Lemma prefix_split (p h : string) :
  String.prefix p h = true ->
  h = p ++ of_chars (skipn (String.length p) (chars h)).
Proof.
  revert h. induction p as [|a p IH]; intros h H.
  - simpl. symmetry. apply of_chars_chars.
  - destruct h as [|b h]; simpl in H; [discriminate H|].
    destruct (ascii_dec a b) as [->|]; [|discriminate H].
    simpl. f_equal. exact (IH h H).
Qed.

(** X21: [authenticate] lets a request through only when its header is
    ["Bearer "] followed by the API key of an Agent of the store, and
    then the request acts for an Agent with that key. *)
Theorem authenticate_sound (authorization : option string) (db : Db.t)
    (a : Agent.t) :
  server.authenticate authorization db = Some a ->
  authorization = Some ("Bearer " ++ Agent.api_key a)
  /\ In a (obj_values (Db.agents db)).
Proof.
  unfold server.authenticate, server.bearer, agents.findByApiKey.
  destruct authorization as [h|]; [|discriminate].
  destruct (String.prefix "Bearer " h) eqn:E; [|discriminate].
  intros H. apply find_some in H as [Hin Hk].
  apply String.eqb_eq in Hk. split; [|exact Hin].
  f_equal. rewrite Hk. exact (prefix_split "Bearer " h E).
Qed.

Lemma authenticate_sound_witness :
  let db := server.serve Session.requests Db.empty in
  let ada := Agent.mk "u1" "Ada" "Ada L." None None None [] "th_a" 1 1 in
  server.authenticate Session.ada db = Some ada
  /\ Session.ada = Some ("Bearer " ++ Agent.api_key ada)
  /\ In ada (obj_values (Db.agents db)).
Proof.
  intros db ada.
  assert (H : server.authenticate Session.ada db = Some ada) by reflexivity.
  split; [exact H|]. exact (authenticate_sound Session.ada db ada H).
Defined.

(** ** The length of a listing *)

Lemma slice0_length (A : Type) (n : Z) (l : list A) :
  (0 <= n)%Z -> (List.length (slice0 n l) <= Z.to_nat n)%nat.
Proof.
  intros Hn. unfold slice0.
  destruct (n <? 0)%Z eqn:E; [apply Z.ltb_lt in E; lia|].
  apply firstn_le_length.
Qed.

(** X22: unless the [limit] of the query parses to a negative number,
    [GET /api/v1/projects] lists at most 100 projects, and at most 20
    when the query has no limit or one that parses to [NaN] or 0. *)
Theorem list_projects_length (parseInt : string -> option Z)
    (exponent_head : Z -> Z)
    (query : ListQuery.t) (db : Db.t) :
  let parsed := match ListQuery.limit query with
                | Some s => parseInt s
                | None => None
                end in
  (forall n, parsed = Some n -> (0 <= n)%Z) ->
  (List.length (server.list_projects parseInt exponent_head query db)
   <= 100)%nat
  /\ (parsed = None \/ parsed = Some 0%Z ->
      (List.length (server.list_projects parseInt exponent_head query db)
       <= 20)%nat).
Proof.
  intros parsed Hpos. unfold server.list_projects. rewrite length_map.
  fold parsed. clearbody parsed. unfold projects.findAll. cbn [Filters.limit].
  set (l := sort_by projects.newest_first _).
  assert (Hlim : (1 <= server.list_limit parsed <= 100)%Z
                 /\ (parsed = None \/ parsed = Some 0%Z ->
                     server.list_limit parsed = 20%Z)).
  { unfold server.list_limit. destruct parsed as [n|]; simpl.
    - specialize (Hpos n eq_refl).
      destruct (n =? 0)%Z eqn:E; simpl.
      + split; [lia|]. intros _. reflexivity.
      + apply Z.eqb_neq in E. split; [lia|].
        intros [H|H]; [discriminate|]. injection H as ->. lia.
    - split; [lia|]. intros _. reflexivity. }
  destruct Hlim as [[Hlo Hhi] H20].
  assert (Ht : truthy_num (Some (server.list_limit parsed))
               = Some (server.list_limit parsed)).
  { simpl. destruct (server.list_limit parsed =? 0)%Z eqn:E;
      [apply Z.eqb_eq in E; lia|reflexivity]. }
  rewrite Ht.
  assert (Hp : parseInt_number exponent_head (server.list_limit parsed)
               = server.list_limit parsed).
  { unfold parseInt_number.
    destruct (Z.abs (server.list_limit parsed) <? 10 ^ 21)%Z eqn:E;
      [reflexivity|apply Z.ltb_ge in E; lia]. }
  rewrite Hp.
  pose proof (slice0_length _ (server.list_limit parsed) l) as Hlen.
  split.
  - assert (Z.to_nat (server.list_limit parsed) <= 100)%nat by lia. lia.
  - intros Hq. specialize (H20 Hq).
    assert (Z.to_nat (server.list_limit parsed) = 20)%nat by lia. lia.
Qed.

Lemma list_projects_length_witness :
  let parseInt := fun s : string => if String.eqb s "1" then Some 1%Z else None in
  let query := ListQuery.mk None None None (Some "1") in
  let db := server.serve Session.requests Db.empty in
  (forall n, parseInt "1" = Some n -> (0 <= n)%Z)
  /\ (List.length (server.list_projects parseInt (fun _ : Z => 1%Z) query db) <= 100)%nat.
Proof.
  intros parseInt query db.
  assert (H : forall n, parseInt "1" = Some n -> (0 <= n)%Z).
  { intros n E. vm_compute in E. injection E as <-. lia. }
  split; [exact H|].
  exact (proj1 (list_projects_length parseInt (fun _ : Z => 1%Z) query db H)).
Defined.

(** ** Who may do what *)

(** X23: changing a project, deleting it and accepting or declining its
    collaborators succeed (status 200) only for the authenticated agent
    who created the project found under the slug. *)
Theorem creator_only (authorization : option string) (slug : string)
    (db : Db.t) :
  forall code,
    (exists body now,
       code = fst (server.patch_project authorization slug body now db))
    \/ code = fst (server.delete_project authorization slug db)
    \/ (exists agentName status,
          code = fst (server.manage_collaborator authorization slug
                        agentName status db)) ->
    code = 200%nat ->
    exists a p,
      server.authenticate authorization db = Some a
      /\ projects.findBySlug slug db = Some p
      /\ Project.creator_id p = Agent.id a.
Proof.
  intros code Hcode H200.
  destruct Hcode as [[body [now E]]|[E|[agentName [status E]]]];
    rewrite E in H200; clear E.
  - unfold server.patch_project in H200.
    destruct (server.authenticate authorization db) as [a|];
      [|discriminate].
    destruct (projects.findBySlug slug db) as [p|]; [|discriminate].
    destruct (String.eqb (Project.creator_id p) (Agent.id a)) eqn:E;
      [|discriminate].
    apply String.eqb_eq in E. eauto.
  - unfold server.delete_project in H200.
    destruct (server.authenticate authorization db) as [a|];
      [|discriminate].
    destruct (projects.findBySlug slug db) as [p|]; [|discriminate].
    destruct (String.eqb (Project.creator_id p) (Agent.id a)) eqn:E;
      [|discriminate].
    apply String.eqb_eq in E. eauto.
  - unfold server.manage_collaborator in H200.
    destruct (server.authenticate authorization db) as [a|];
      [|discriminate].
    destruct (projects.findBySlug slug db) as [p|]; [|discriminate].
    destruct (String.eqb (Project.creator_id p) (Agent.id a)) eqn:E;
      [|discriminate].
    apply String.eqb_eq in E. eauto.
Qed.

Lemma creator_only_witness :
  let db := server.serve Session.requests Db.empty in
  (fst (server.delete_project Session.bob "self-balancing-robot" db)
   = 403%nat)
  /\ fst (server.delete_project Session.ada "self-balancing-robot" db)
     = 200%nat
  /\ exists a p,
       server.authenticate Session.ada db = Some a
       /\ projects.findBySlug "self-balancing-robot" db = Some p
       /\ Project.creator_id p = Agent.id a.
Proof.
  intros db. split; [reflexivity|]. split; [reflexivity|].
  apply (creator_only Session.ada "self-balancing-robot" db
           (fst (server.delete_project Session.ada "self-balancing-robot" db))).
  - right. left. reflexivity.
  - reflexivity.
Defined.

(** X24: a build-log update is posted (status 201) only by an
    authenticated agent whose Collaboration with the project is
    accepted, and only with content that is not empty. *)
Theorem post_update_accepted_only (authorization : option string)
    (slug : string) (content : option string) (id : string) (now now' : Z)
    (db : Db.t) :
  fst (server.post_update authorization slug content id now now' db)
  = 201%nat ->
  exists a p c text,
    server.authenticate authorization db = Some a
    /\ projects.findBySlug slug db = Some p
    /\ collaborations.findByProjectAndAgent (Project.id p) (Agent.id a) db
       = Some c
    /\ Collaboration.status c = "accepted"
    /\ content = Some text /\ text <> "".
Proof.
  unfold server.post_update.
  destruct (server.authenticate authorization db) as [a|]; [|discriminate].
  destruct (projects.findBySlug slug db) as [p|]; [|discriminate].
  destruct (collaborations.findByProjectAndAgent (Project.id p)
              (Agent.id a) db) as [c|] eqn:Hf; [|discriminate].
  destruct (String.eqb (Collaboration.status c) "accepted") eqn:E;
    [|discriminate].
  apply String.eqb_eq in E.
  destruct content as [text|]; [|discriminate]. simpl.
  destruct (String.eqb text "") eqn:Et; [discriminate|].
  apply String.eqb_neq in Et. intros _.
  exists a, p, c, text. repeat split; auto.
Qed.

Lemma post_update_accepted_only_witness :
  let db := server.serve Session.requests Db.empty in
  fst (server.post_update Session.bob "self-balancing-robot"
         (Some "wheels on") "n1" 8 8 db) = 201%nat
  /\ exists a p c text,
       server.authenticate Session.bob db = Some a
       /\ projects.findBySlug "self-balancing-robot" db = Some p
       /\ collaborations.findByProjectAndAgent (Project.id p) (Agent.id a) db
          = Some c
       /\ Collaboration.status c = "accepted"
       /\ Some "wheels on" = Some text /\ text <> "".
Proof.
  intros db. split; [reflexivity|].
  apply (post_update_accepted_only Session.bob "self-balancing-robot"
           (Some "wheels on") "n1" 8 8 db).
  reflexivity.
Defined.

(** ** Further instances *)

Lemma slugify_shape_witness :
  slugify "  --Hello,   World!! " = "hello-world"
  /\ (String.length (slugify "  --Hello,   World!! ") <= 50)%nat
  /\ forall l, chars (slugify "  --Hello,   World!! ") <> hyphen :: l.
Proof.
  split; [reflexivity|].
  pose proof (slugify_shape "  --Hello,   World!! ") as [H1 [_ [_ H4]]].
  split; [exact H1|exact H4].
Defined.

Lemma agents_nameExists_findByName_witness :
  let ada := Agent.mk "u1" "Ada" "Ada L." None None None [] "th_1" 1 1 in
  let db := Db.mk [("u1", ada)] [] [] [] [] in
  agents.findByName "ADA" db = Some ada
  /\ In ada (obj_values (Db.agents db))
  /\ toLowerCase (Agent.name ada) = toLowerCase "ADA".
Proof.
  intros ada db.
  assert (H : agents.findByName "ADA" db = Some ada) by reflexivity.
  split; [exact H|].
  exact (proj2 (agents_nameExists_findByName "ADA" db) ada H).
Defined.

Lemma generateApiKey_format_witness :
  let buf := [Byte.x00; Byte.xff; Byte.x1a] in
  generateApiKey buf = "th_00ff1a"
  /\ generateApiKey buf = generateApiKey buf
  /\ String.length (generateApiKey buf) = 9%nat.
Proof.
  intros buf.
  pose proof (generateApiKey_format buf) as [H1 [_ H3]].
  split; [reflexivity|]. split; [reflexivity|]. exact H1.
Defined.
